(** * Modelfile parser (modelfile-parser.cpp): embedding and properties

    The parser reads a text file with [fgets], right-trims every line,
    skips blank and comment lines and hands the rest to [parse_line],
    which fills a [ModelFile] record.  SYSTEM and LICENSE values that
    contain a triple quote pull further lines through [read_multiline].

    [std::string] is modelled as [string] (a sequence of 8-bit
    characters), [size_t] positions as [nat], [std::string::npos] as
    [None], a [FILE*] opened for reading as the text that is still
    unread.  A [std::out_of_range] thrown by [substr] or [erase] is the
    outcome [OutOfRange]; the two [while (fgets ...)] loops run on a
    bound that is fixed from the length of the unread text. *)

From Stdlib Require Import String Ascii List Arith Lia Bool.
Import ListNotations.
Open Scope string_scope.

(** ** Outcomes of a computation that may throw *)

Inductive outcome (A : Type) : Type :=
| Ok (a : A)
| OutOfRange
| Diverge.

Arguments Ok {A} a.
Arguments OutOfRange {A}.
Arguments Diverge {A}.

Definition bind {A B : Type} (m : outcome A) (k : A -> outcome B) : outcome B :=
  match m with
  | Ok a => k a
  | OutOfRange => OutOfRange
  | Diverge => Diverge
  end.

Notation "x <- m ;; k" := (bind m (fun x => k))
  (at level 61, m at next level, right associativity).
Notation "' p <- m ;; k" := (bind m (fun x => match x with p => k end))
  (at level 61, p pattern, m at next level, right associativity).

(** ** The [std::string] operations the parser uses *)

Module StdString.

Fixpoint take (n : nat) (s : string) : string :=
  match n, s with
  | S n', String c s' => String c (take n' s')
  | _, _ => EmptyString
  end.

Fixpoint drop (n : nat) (s : string) : string :=
  match n, s with
  | S n', String _ s' => drop n' s'
  | _, _ => s
  end.

(** [s.substr(pos, count)]: throws when [pos > s.size()], otherwise the
    characters from [pos], at most [count] of them. *)
Definition substr (s : string) (pos count : nat) : outcome string :=
  if Nat.ltb (String.length s) pos then OutOfRange else Ok (take count (drop pos s)).

(** [s.substr(pos)]: as above, to the end of the string. *)
Definition substr_from (s : string) (pos : nat) : outcome string :=
  if Nat.ltb (String.length s) pos then OutOfRange else Ok (drop pos s).

(** [s.erase(index)]: throws when [index > s.size()], otherwise drops
    everything from [index] on. *)
Definition erase (s : string) (index : nat) : outcome string :=
  if Nat.ltb (String.length s) index then OutOfRange else Ok (take index s).

(** [s.find(ch, pos)]: the first position at or after [pos] that holds
    [ch]; [None] is [npos]. *)
Fixpoint find_char (s : string) (ch : ascii) (pos : nat) : option nat :=
  match s with
  | EmptyString => None
  | String c s' =>
      match pos with
      | 0 => if Ascii.eqb c ch then Some 0
             else option_map S (find_char s' ch 0)
      | S pos' => option_map S (find_char s' ch pos')
      end
  end.

(** [s.find(str)]: the first position where [str] occurs. *)
Fixpoint find (s str : string) : option nat :=
  if prefix str s then Some 0
  else match s with
       | EmptyString => None
       | String _ s' => option_map S (find s' str)
       end.

Fixpoint mem (c : ascii) (chars : string) : bool :=
  match chars with
  | EmptyString => false
  | String d chars' => Ascii.eqb c d || mem c chars'
  end.

(** [s.find_last_not_of(chars)]: the last position whose character is
    not one of [chars]. *)
Fixpoint find_last_not_of (s chars : string) : option nat :=
  match s with
  | EmptyString => None
  | String c s' =>
      match find_last_not_of s' chars with
      | Some i => Some (S i)
      | None => if mem c chars then None else Some 0
      end
  end.

(** [p + 1] on [size_t]: [npos] is the largest value, so [npos + 1]
    wraps to [0]. *)
Definition succ_size_t (p : option nat) : nat :=
  match p with
  | None => 0
  | Some i => S i
  end.

(** [s.back()], on a string that is not empty. *)
Fixpoint back (s : string) : option ascii :=
  match s with
  | EmptyString => None
  | String c EmptyString => Some c
  | String _ s' => back s'
  end.

(** [s.pop_back()]. *)
Fixpoint pop_back (s : string) : string :=
  match s with
  | EmptyString => EmptyString
  | String _ EmptyString => EmptyString
  | String c s' => String c (pop_back s')
  end.

(** [s.empty()]. *)
Definition empty (s : string) : bool :=
  match s with
  | EmptyString => true
  | String _ _ => false
  end.

(** [s[0]], on a string that is not empty. *)
Definition front (s : string) : option ascii :=
  match s with
  | EmptyString => None
  | String c _ => Some c
  end.

End StdString.

Import StdString.

(** ** The C stream *)

Definition NL : ascii := "010"%char.
Definition CR : ascii := "013"%char.
Definition TAB : ascii := "009"%char.
Definition NUL : ascii := "000"%char.
Definition DQUOTE : ascii := "034"%char.

(** A stream opened for reading: the text not yet read. *)
Definition FILE : Type := string.

(** Files by name; [None] is a file that cannot be opened. *)
Definition filesystem : Type := string -> option string.

(** The characters one [fgets] call stores: at most [n], stopping after
    a newline or at the end of the stream. *)
Fixpoint fgets_scan (n : nat) (s : string) : string * string :=
  match n, s with
  | 0, _ => (EmptyString, s)
  | _, EmptyString => (EmptyString, EmptyString)
  | S n', String c s' =>
      if Ascii.eqb c NL then (String c EmptyString, s')
      else let '(l, r) := fgets_scan n' s' in (String c l, r)
  end.

(** [fgets(buffer, size, file)]: [None] is the null pointer returned at
    the end of the stream; otherwise the characters stored in the buffer
    (before the terminating NUL) and the stream after the call. *)
Definition fgets (size : nat) (file : FILE) : option (string * FILE) :=
  match file with
  | EmptyString => None
  | String _ _ => Some (fgets_scan (size - 1) file)
  end.

(** [std::string line(buffer)]: the buffer up to its first NUL. *)
Fixpoint string_of_buffer (buffer : string) : string :=
  match buffer with
  | EmptyString => EmptyString
  | String c s => if Ascii.eqb c NUL then EmptyString
                  else String c (string_of_buffer s)
  end.

(** [fopen(filename.c_str(), "r")]. *)
Definition fopen (fs : filesystem) (filename : string) : option FILE :=
  fs (string_of_buffer filename).

(** ** The parser *)

Record ModelFile : Type := mkModelFile {
  from : string;
  parameters : list (string * string);
  template_str : string;
  system : string;
  adapter : string;
  license : string;
  messages : list (string * string)
}.

(** A default-constructed [ModelFile]. *)
Definition empty_model : ModelFile :=
  mkModelFile EmptyString [] EmptyString EmptyString EmptyString
    EmptyString [].

Definition set_from (m : ModelFile) (v : string) : ModelFile :=
  mkModelFile v (parameters m) (template_str m) (system m) (adapter m)
    (license m) (messages m).

Definition set_template_str (m : ModelFile) (v : string) : ModelFile :=
  mkModelFile (from m) (parameters m) v (system m) (adapter m)
    (license m) (messages m).

Definition set_system (m : ModelFile) (v : string) : ModelFile :=
  mkModelFile (from m) (parameters m) (template_str m) v (adapter m)
    (license m) (messages m).

Definition set_adapter (m : ModelFile) (v : string) : ModelFile :=
  mkModelFile (from m) (parameters m) (template_str m) (system m) v
    (license m) (messages m).

Definition set_license (m : ModelFile) (v : string) : ModelFile :=
  mkModelFile (from m) (parameters m) (template_str m) (system m) (adapter m)
    v (messages m).

(** [model.parameters.emplace_back(param, value)]. *)
Definition emplace_parameter (m : ModelFile) (param value : string) : ModelFile :=
  mkModelFile (from m) (parameters m ++ [(param, value)]) (template_str m)
    (system m) (adapter m) (license m) (messages m).

(** [model.messages.emplace_back(role, message)]. *)
Definition emplace_message (m : ModelFile) (role message : string) : ModelFile :=
  mkModelFile (from m) (parameters m) (template_str m) (system m) (adapter m)
    (license m) (messages m ++ [(role, message)]).

(** The triple quote. *)
Definition marker : string :=
  String DQUOTE (String DQUOTE (String DQUOTE EmptyString)).

Definition buffer_size : nat := 1024.

Definition starts_with (str prefix : string) : outcome bool :=
  s <- substr str 0 (String.length prefix) ;;
  Ok (String.eqb s prefix).

(** The loop of [read_multiline]; [fuel] bounds the number of rounds. *)
Fixpoint read_multiline_loop (fuel : nat) (file : FILE) (result : string)
  : outcome (string * FILE) :=
  match fuel with
  | 0 => Diverge
  | S fuel' =>
      match fgets buffer_size file with
      | None => Ok (result, file)
      | Some (buffer, file') =>
          let line := string_of_buffer buffer in
          let result := result ++ line in
          match find line marker with
          | Some _ => Ok (result, file')
          | None => read_multiline_loop fuel' file' result
          end
      end
  end.

Definition read_multiline (file : FILE) : outcome (string * FILE) :=
  '(result, file') <- read_multiline_loop (S (String.length file)) file EmptyString ;;
  if negb (empty result) && match back result with
                            | Some c => Ascii.eqb c NL
                            | None => false
                            end
  then Ok (pop_back result, file')
  else Ok (result, file').

Definition parse_line (line : string) (model : ModelFile) (file : FILE)
  : outcome (ModelFile * FILE) :=
  b <- starts_with line "FROM " ;;
  if b then
    v <- substr_from line 5 ;;
    Ok (set_from model v, file)
  else
  b <- starts_with line "PARAMETER " ;;
  if b then
    match find_char line " " 10 with
    | Some space_pos =>
        param <- substr line 10 (space_pos - 10) ;;
        value <- substr_from line (space_pos + 1) ;;
        Ok (emplace_parameter model param value, file)
    | None => Ok (model, file)
    end
  else
  b <- starts_with line "TEMPLATE " ;;
  if b then
    v <- substr_from line 9 ;;
    Ok (set_template_str model v, file)
  else
  b <- starts_with line "SYSTEM " ;;
  if b then
    v <- substr_from line 7 ;;
    let model := set_system model v in
    match find (system model) marker with
    | Some _ =>
        '(more, file') <- read_multiline file ;;
        Ok (set_system model (system model ++ (String NL EmptyString ++ more)), file')
    | None => Ok (model, file)
    end
  else
  b <- starts_with line "ADAPTER " ;;
  if b then
    v <- substr_from line 8 ;;
    Ok (set_adapter model v, file)
  else
  b <- starts_with line "LICENSE " ;;
  if b then
    v <- substr_from line 8 ;;
    let model := set_license model v in
    match find (license model) marker with
    | Some _ =>
        '(more, file') <- read_multiline file ;;
        Ok (set_license model (license model ++ (String NL EmptyString ++ more)), file')
    | None => Ok (model, file)
    end
  else
  b <- starts_with line "MESSAGE " ;;
  if b then
    match find_char line " " 8 with
    | Some space_pos =>
        role <- substr line 8 (space_pos - 8) ;;
        message <- substr_from line (space_pos + 1) ;;
        Ok (emplace_message model role message, file)
    | None => Ok (model, file)
    end
  else Ok (model, file).

(** The characters trimmed from the right of every line. *)
Definition trim_chars : string :=
  String " "%char (String NL (String CR (String TAB EmptyString))).

(** The loop of [parse_modelfile]; [fuel] bounds the number of rounds. *)
Fixpoint parse_modelfile_loop (fuel : nat) (file : FILE) (model : ModelFile)
  : outcome ModelFile :=
  match fuel with
  | 0 => Diverge
  | S fuel' =>
      match fgets buffer_size file with
      | None => Ok model
      | Some (buffer, file') =>
          line <- erase (string_of_buffer buffer)
                    (succ_size_t (find_last_not_of (string_of_buffer buffer)
                                    trim_chars)) ;;
          if empty line || match front line with
                           | Some c => Ascii.eqb c "#"%char
                           | None => false
                           end
          then parse_modelfile_loop fuel' file' model
          else
            '(model', file'') <- parse_line line model file' ;;
            parse_modelfile_loop fuel' file'' model'
      end
  end.

Definition parse_modelfile (fs : filesystem) (filename : string)
  : outcome ModelFile :=
  let model := empty_model in
  match fopen fs filename with
  | None => Ok model
  | Some file => parse_modelfile_loop (S (String.length file)) file model
  end.

(** A filesystem that holds one file. *)
Definition single_file (name content : string) : filesystem :=
  fun n => if String.eqb n name then Some content else None.

(** A text from its lines, each followed by a newline. *)
Fixpoint unlines (ls : list string) : string :=
  match ls with
  | [] => EmptyString
  | l :: ls' => l ++ String NL (unlines ls')
  end.

(** ** Notions used in the statements *)

(** The right trim of [parse_modelfile], as a function. *)
Definition rtrim (s : string) : string :=
  take (succ_size_t (find_last_not_of s trim_chars)) s.

(** No character of [s] is [c]. *)
Definition lacks (c : ascii) (s : string) : Prop := find_char s c 0 = None.

(** Every character of [s] is one of [chars]. *)
Fixpoint all_in (chars s : string) : bool :=
  match s with
  | EmptyString => true
  | String c s' => mem c chars && all_in chars s'
  end.

(** [s] is not empty and its last character is not trimmed. *)
Definition ends_clean (s : string) : bool :=
  match back s with
  | Some c => negb (mem c trim_chars)
  | None => false
  end.

(** The shapes a line handed to [parse_line] can have. *)
Inductive line_shape (line : string) : Prop :=
| shape_from (v : string) (E : line = "FROM " ++ v)
| shape_parameter (rest : string) (E : line = "PARAMETER " ++ rest)
| shape_template (v : string) (E : line = "TEMPLATE " ++ v)
| shape_system (v : string) (E : line = "SYSTEM " ++ v)
| shape_adapter (v : string) (E : line = "ADAPTER " ++ v)
| shape_license (v : string) (E : line = "LICENSE " ++ v)
| shape_message (rest : string) (E : line = "MESSAGE " ++ rest)
| shape_other (Hfrom : prefix "FROM " line = false)
    (Hparameter : prefix "PARAMETER " line = false)
    (Htemplate : prefix "TEMPLATE " line = false)
    (Hsystem : prefix "SYSTEM " line = false)
    (Hadapter : prefix "ADAPTER " line = false)
    (Hlicense : prefix "LICENSE " line = false)
    (Hmessage : prefix "MESSAGE " line = false).

(** [file'] is what is left of [file] after reading some of it. *)
Definition rest_of (file file' : FILE) : Prop := exists pre, file = pre ++ file'.

(** The test that makes [parse_modelfile] drop a trimmed line. *)
Definition skipped (line : string) : bool :=
  empty line || match front line with
                | Some c => Ascii.eqb c "#"%char
                | None => false
                end.

(** The main loop on a stream, with the bound [parse_modelfile] gives it. *)
Definition parse_stream (file : FILE) (model : ModelFile) : outcome ModelFile :=
  parse_modelfile_loop (S (String.length file)) file model.

(** [reads file ls file']: successive [fgets] calls on [file] yield the
    lines [ls] (as the [std::string] built from the buffer) and leave
    [file']. *)
Inductive reads : FILE -> list string -> FILE -> Prop :=
| reads_nil (file : FILE) : reads file [] file
| reads_cons (file : FILE) (b : string) (file1 : FILE) (ls : list string)
    (file2 : FILE) :
    fgets buffer_size file = Some (b, file1) ->
    reads file1 ls file2 ->
    reads file (string_of_buffer b :: ls) file2.

(** The lines of [ls], one after the other. *)
Fixpoint join (ls : list string) : string :=
  match ls with
  | [] => EmptyString
  | l :: ls' => l ++ join ls'
  end.

(** The end of [read_multiline]: one trailing newline is removed. *)
Definition chomp (result : string) : string :=
  if negb (empty result) && match back result with
                            | Some c => Ascii.eqb c NL
                            | None => false
                            end
  then pop_back result
  else result.

(** A line of text that [fgets] returns whole and unchanged once a
    newline is put after it. *)
Definition short_line (l : string) : Prop :=
  lacks NL l /\ lacks NUL l /\ String.length l + 1 < buffer_size.

Definition has_marker (s : string) : bool :=
  match find s marker with
  | Some _ => true
  | None => false
  end.

(** Parsing a file named [Modelfile] that holds [text]. *)
Definition parse_text (text : string) : outcome ModelFile :=
  parse_modelfile (single_file "Modelfile" text) "Modelfile".

(** The pair a line holds when it starts with [keyword]: the text after
    the keyword up to the first space, and the text after that space. *)
Definition pair_after (keyword line : string) : list (string * string) :=
  if prefix keyword line then
    let rest := drop (String.length keyword) line in
    match find_char rest " " 0 with
    | Some p => [(take p rest, drop (S p) rest)]
    | None => []
    end
  else [].

(** A value that is not empty and whose last character is none of
    space, tab, carriage return and newline. *)
Definition value_ok (v : string) : Prop :=
  v <> EmptyString
  /\ exists c, back v = Some c
               /\ c <> " "%char /\ c <> TAB /\ c <> CR /\ c <> NL.

(** The stream after [parse_line] has handled [line]; the model plays
    no part in it. *)
Definition stream_after (line : string) (file : FILE) : FILE :=
  match parse_line line empty_model file with
  | Ok (_, file') => file'
  | _ => file
  end.

(** [handled file hs]: [hs] are the trimmed lines that the main loop
    hands to [parse_line] while it reads [file] to its end, in order.
    Blank and comment lines are dropped, and so are the lines that
    [parse_line] itself reads for a continuation. *)
Inductive handled : FILE -> list string -> Prop :=
| handled_eof : handled EmptyString []
| handled_skip (file : FILE) (raw : string) (file1 : FILE) (hs : list string) :
    reads file [raw] file1 ->
    skipped (rtrim raw) = true ->
    handled file1 hs ->
    handled file hs
| handled_line (file : FILE) (raw : string) (file1 : FILE) (hs : list string) :
    reads file [raw] file1 ->
    skipped (rtrim raw) = false ->
    handled (stream_after (rtrim raw) file1) hs ->
    handled file (rtrim raw :: hs).

(** The line is a SYSTEM or LICENSE line whose value holds the marker. *)
Definition opens_continuation (line : string) : bool :=
  (prefix "SYSTEM " line && has_marker (drop 7 line))
  || (prefix "LICENSE " line && has_marker (drop 8 line)).

(** A raw line that is blank (trimmed characters only) or a comment
    (first character [#]). *)
Definition blank_or_comment (raw : string) : bool :=
  all_in trim_chars raw
  || match front raw with
     | Some c => Ascii.eqb c "#"%char
     | None => false
     end.

(** The value a scalar field ends with: the text after the keyword on
    the last of the lines [hs] that starts with it, or [init] when none
    does. *)
Definition last_value (keyword : string) (hs : list string) (init : string)
  : string :=
  fold_left (fun acc l => if prefix keyword l
                          then drop (String.length keyword) l
                          else acc) hs init.

(** The fields that one line fills hold no character [c]: the three
    scalar fields of FROM, TEMPLATE and ADAPTER, and both parts of every
    pair. *)
Definition single_line_fields_lack (c : ascii) (m : ModelFile) : Prop :=
  lacks c (from m) /\ lacks c (template_str m) /\ lacks c (adapter m)
  /\ Forall (fun kv => lacks c (fst kv) /\ lacks c (snd kv)) (parameters m)
  /\ Forall (fun kv => lacks c (fst kv) /\ lacks c (snd kv)) (messages m).

(** [n] copies of [c]. *)
Fixpoint replicate (n : nat) (c : ascii) : string :=
  match n with
  | 0 => EmptyString
  | S n' => String c (replicate n' c)
  end.

(** ** The program *)

(** One [printf] of the loops of [main]: the label, the two parts of the
    pair through [c_str()] (so up to their first NUL), a newline;
    [out] is what was printed before. *)
Definition print_pair (label : string) (out : string) (p : string * string)
  : string :=
  out ++ label ++ " " ++ string_of_buffer (fst p) ++ ": "
      ++ string_of_buffer (snd p) ++ String NL EmptyString.

(** [main]: the text printed and the value returned. *)
Definition main (fs : filesystem) : outcome (string * nat) :=
  model <- parse_modelfile fs "Modelfile" ;;
  let out := "FROM: " ++ string_of_buffer (from model)
                      ++ String NL EmptyString in
  let out := fold_left (print_pair "PARAMETER") (parameters model) out in
  let out := out ++ "TEMPLATE: " ++ string_of_buffer (template_str model)
                 ++ String NL EmptyString in
  let out := out ++ "SYSTEM: " ++ string_of_buffer (system model)
                 ++ String NL EmptyString in
  let out := out ++ "ADAPTER: " ++ string_of_buffer (adapter model)
                 ++ String NL EmptyString in
  let out := out ++ "LICENSE: " ++ string_of_buffer (license model)
                 ++ String NL EmptyString in
  let out := fold_left (print_pair "MESSAGE") (messages model) out in
  Ok (out, 0).

(** The lines of a report for the pairs [ps], each in full. *)
Fixpoint report_pairs (label : string) (ps : list (string * string)) : string :=
  match ps with
  | [] => EmptyString
  | p :: ps' => label ++ " " ++ fst p ++ ": " ++ snd p
                  ++ String NL (report_pairs label ps')
  end.

(** The report of a document with every field in full. *)
Definition report (model : ModelFile) : string :=
  "FROM: " ++ from model ++ String NL
    (report_pairs "PARAMETER" (parameters model)
     ++ "TEMPLATE: " ++ template_str model ++ String NL
          ("SYSTEM: " ++ system model ++ String NL
             ("ADAPTER: " ++ adapter model ++ String NL
                ("LICENSE: " ++ license model ++ String NL
                   (report_pairs "MESSAGE" (messages model)))))).

(** ** The read buffers as memory *)

(** [fgets] on a buffer that holds [buffer] before the call: after it
    the buffer holds the characters read, the terminating NUL and,
    beyond them, what it held before.  At the end of the stream the
    buffer is left alone. *)
Definition fgets_into (buffer : string) (size : nat) (file : FILE)
  : option (string * FILE) :=
  match fgets size file with
  | None => None
  | Some (chunk, file') =>
      Some (chunk ++ String NUL (drop (S (String.length chunk)) buffer), file')
  end.

(** The loop of [read_multiline] on its buffer. *)
Fixpoint read_multiline_loop_mem (fuel : nat) (buffer : string) (file : FILE)
         (result : string) : outcome (string * FILE) :=
  match fuel with
  | 0 => Diverge
  | S fuel' =>
      match fgets_into buffer buffer_size file with
      | None => Ok (result, file)
      | Some (buffer', file') =>
          let line := string_of_buffer buffer' in
          let result := result ++ line in
          match find line marker with
          | Some _ => Ok (result, file')
          | None => read_multiline_loop_mem fuel' buffer' file' result
          end
      end
  end.

(** [read_multiline] when its buffer, which is not initialised, holds
    [garbage] on entry. *)
Definition read_multiline_mem (garbage : string) (file : FILE)
  : outcome (string * FILE) :=
  '(result, file') <- read_multiline_loop_mem (S (String.length file)) garbage
                        file EmptyString ;;
  if negb (empty result) && match back result with
                            | Some c => Ascii.eqb c NL
                            | None => false
                            end
  then Ok (pop_back result, file')
  else Ok (result, file').

(** [parse_line] when a call of [read_multiline] finds [garbage] in its
    buffer. *)
Definition parse_line_mem (garbage : string) (line : string) (model : ModelFile)
           (file : FILE) : outcome (ModelFile * FILE) :=
  b <- starts_with line "FROM " ;;
  if b then
    v <- substr_from line 5 ;;
    Ok (set_from model v, file)
  else
  b <- starts_with line "PARAMETER " ;;
  if b then
    match find_char line " " 10 with
    | Some space_pos =>
        param <- substr line 10 (space_pos - 10) ;;
        value <- substr_from line (space_pos + 1) ;;
        Ok (emplace_parameter model param value, file)
    | None => Ok (model, file)
    end
  else
  b <- starts_with line "TEMPLATE " ;;
  if b then
    v <- substr_from line 9 ;;
    Ok (set_template_str model v, file)
  else
  b <- starts_with line "SYSTEM " ;;
  if b then
    v <- substr_from line 7 ;;
    let model := set_system model v in
    match find (system model) marker with
    | Some _ =>
        '(more, file') <- read_multiline_mem garbage file ;;
        Ok (set_system model (system model ++ (String NL EmptyString ++ more)), file')
    | None => Ok (model, file)
    end
  else
  b <- starts_with line "ADAPTER " ;;
  if b then
    v <- substr_from line 8 ;;
    Ok (set_adapter model v, file)
  else
  b <- starts_with line "LICENSE " ;;
  if b then
    v <- substr_from line 8 ;;
    let model := set_license model v in
    match find (license model) marker with
    | Some _ =>
        '(more, file') <- read_multiline_mem garbage file ;;
        Ok (set_license model (license model ++ (String NL EmptyString ++ more)), file')
    | None => Ok (model, file)
    end
  else
  b <- starts_with line "MESSAGE " ;;
  if b then
    match find_char line " " 8 with
    | Some space_pos =>
        role <- substr line 8 (space_pos - 8) ;;
        message <- substr_from line (space_pos + 1) ;;
        Ok (emplace_message model role message, file)
    | None => Ok (model, file)
    end
  else Ok (model, file).

(** The loop of [parse_modelfile] on its buffer; [stack file] is what a
    call of [read_multiline] made with the stream at [file] finds in its
    own buffer (whatever earlier calls left there). *)
Fixpoint parse_modelfile_loop_mem (stack : FILE -> string) (fuel : nat)
         (buffer : string) (file : FILE) (model : ModelFile)
  : outcome ModelFile :=
  match fuel with
  | 0 => Diverge
  | S fuel' =>
      match fgets_into buffer buffer_size file with
      | None => Ok model
      | Some (buffer', file') =>
          line <- erase (string_of_buffer buffer')
                    (succ_size_t (find_last_not_of (string_of_buffer buffer')
                                    trim_chars)) ;;
          if empty line || match front line with
                           | Some c => Ascii.eqb c "#"%char
                           | None => false
                           end
          then parse_modelfile_loop_mem stack fuel' buffer' file' model
          else
            '(model', file'') <- parse_line_mem (stack file') line model file' ;;
            parse_modelfile_loop_mem stack fuel' buffer' file'' model'
      end
  end.

(** [parse_modelfile] in a run whose buffer holds [garbage] on entry. *)
Definition parse_modelfile_mem (garbage : string) (stack : FILE -> string)
           (fs : filesystem) (filename : string) : outcome ModelFile :=
  let model := empty_model in
  match fopen fs filename with
  | None => Ok model
  | Some file =>
      parse_modelfile_loop_mem stack (S (String.length file)) garbage file model
  end.

(** * Facts *)

(** ** Facts about strings *)

Section StringFacts.

Lemma length_app (a b : string) :
  String.length (a ++ b) = String.length a + String.length b.
Proof. induction a as [|c a IH]; simpl; [reflexivity | now rewrite IH]. Qed.

Lemma app_assoc_s (a b c : string) : (a ++ b) ++ c = a ++ (b ++ c).
Proof. induction a as [|x a IH]; simpl; [reflexivity | now rewrite IH]. Qed.

Lemma app_empty_r (a : string) : a ++ EmptyString = a.
Proof. induction a as [|x a IH]; simpl; [reflexivity | now rewrite IH]. Qed.

Lemma take_app (a b : string) : take (String.length a) (a ++ b) = a.
Proof. induction a as [|x a IH]; simpl; [now destruct b | now rewrite IH]. Qed.

Lemma drop_app (a b : string) : drop (String.length a) (a ++ b) = b.
Proof. induction a as [|x a IH]; simpl; [now destruct b | exact IH]. Qed.

Lemma take_drop (n : nat) (s : string) : take n s ++ drop n s = s.
Proof.
  revert s; induction n as [|n IH]; intros [|c s]; simpl; try reflexivity.
  now rewrite IH.
Qed.

Lemma prefix_app (p t : string) : prefix p (p ++ t) = true.
Proof.
  induction p as [|c p IH]; simpl; [now destruct t |].
  destruct (ascii_dec c c); [exact IH | congruence].
Qed.

Lemma prefix_inv (p s : string) :
  prefix p s = true -> exists t, s = p ++ t.
Proof.
  revert s; induction p as [|c p IH]; intros s H.
  - now exists s.
  - destruct s as [|d s]; simpl in H; [discriminate |].
    destruct (ascii_dec c d) as [->|]; [| discriminate].
    destruct (IH _ H) as [t ->]. now exists t.
Qed.

Lemma take_eqb_prefix (p s : string) :
  String.eqb (take (String.length p) s) p = prefix p s.
Proof.
  revert s; induction p as [|c p IH]; intros [|d s]; simpl; try reflexivity.
  destruct (ascii_dec c d) as [->|ne].
  - rewrite Ascii.eqb_refl. apply IH.
  - destruct (Ascii.eqb_spec d c); [congruence | reflexivity].
Qed.

Lemma starts_with_prefix (str p : string) :
  starts_with str p = Ok (prefix p str).
Proof.
  unfold starts_with, substr. simpl.
  now rewrite take_eqb_prefix.
Qed.

Lemma back_app_char (s : string) (c : ascii) :
  back (s ++ String c EmptyString) = Some c.
Proof.
  induction s as [|d s IH]; simpl; [reflexivity |].
  rewrite IH. now destruct s.
Qed.


Lemma back_app (a b : string) :
  b <> EmptyString -> back (a ++ b) = back b.
Proof.
  intros Hb. induction a as [|c a IH]; simpl; [reflexivity |].
  rewrite IH. destruct a; simpl; [| reflexivity].
  destruct b; [congruence | reflexivity].
Qed.

End StringFacts.

(** ** Searching for a character *)

Section FindChar.

Lemma find_char_skip (a s : string) (c : ascii) (n : nat) :
  find_char (a ++ s) c (String.length a + n)
  = option_map (Nat.add (String.length a)) (find_char s c n).
Proof.
  induction a as [|x a IH]; simpl.
  - now destruct (find_char s c n).
  - rewrite IH. now destruct (find_char s c n).
Qed.

Lemma find_char_hit (k v : string) (c : ascii) :
  find_char k c 0 = None ->
  find_char (k ++ String c v) c 0 = Some (String.length k).
Proof.
  induction k as [|x k IH]; simpl; intros H.
  - now rewrite Ascii.eqb_refl.
  - destruct (Ascii.eqb x c); [discriminate |].
    destruct (find_char k c 0); [discriminate |].
    now rewrite IH.
Qed.

Lemma find_char_bounds (s : string) (c : ascii) (n p : nat) :
  find_char s c n = Some p -> n <= p < String.length s.
Proof.
  revert n p; induction s as [|x s IH]; simpl; intros n p H; [discriminate |].
  destruct n as [|n].
  - destruct (Ascii.eqb x c).
    + injection H as <-. lia.
    + destruct (find_char s c 0) as [q|] eqn:E; [| discriminate].
      injection H as <-. apply IH in E. lia.
  - destruct (find_char s c n) as [q|] eqn:E; [| discriminate].
    injection H as <-. apply IH in E. lia.
Qed.

Lemma drop_add (a s : string) (n : nat) :
  drop (String.length a + n) (a ++ s) = drop n s.
Proof. induction a as [|x a IH]; simpl; [reflexivity | exact IH]. Qed.

End FindChar.

(** ** One directive line *)

Section ParseLine.

Variables (m : ModelFile) (file : FILE).

Lemma parse_line_from (v : string) :
  parse_line ("FROM " ++ v) m file = Ok (set_from m v, file).
Proof. reflexivity. Qed.

Lemma parse_line_template (v : string) :
  parse_line ("TEMPLATE " ++ v) m file = Ok (set_template_str m v, file).
Proof. reflexivity. Qed.

Lemma parse_line_adapter (v : string) :
  parse_line ("ADAPTER " ++ v) m file = Ok (set_adapter m v, file).
Proof. reflexivity. Qed.

Lemma substr_from_ok (s : string) (pos : nat) :
  pos <= String.length s -> substr_from s pos = Ok (drop pos s).
Proof.
  intros H. unfold substr_from.
  destruct (Nat.ltb_spec (String.length s) pos); [lia | reflexivity].
Qed.

Lemma substr_ok (s : string) (pos count : nat) :
  pos <= String.length s -> substr s pos count = Ok (take count (drop pos s)).
Proof.
  intros H. unfold substr.
  destruct (Nat.ltb_spec (String.length s) pos); [lia | reflexivity].
Qed.

(** What a line with the given keyword and a separating space does,
    in terms of the text [rest] after them. *)
Lemma parse_line_parameter (rest : string) :
  parse_line ("PARAMETER " ++ rest) m file
  = match find_char rest " " 0 with
    | Some p => Ok (emplace_parameter m (take p rest) (drop (S p) rest), file)
    | None => Ok (m, file)
    end.
Proof.
  unfold parse_line.
  replace (starts_with ("PARAMETER " ++ rest) "FROM ") with (Ok false)
    by reflexivity.
  replace (starts_with ("PARAMETER " ++ rest) "PARAMETER ") with (Ok true)
    by reflexivity.
  cbn [bind].
  rewrite (find_char_skip "PARAMETER " rest " " 0
           : find_char ("PARAMETER " ++ rest) " " 10 = _).
  change (String.length "PARAMETER ") with 10.
  destruct (find_char rest " " 0) as [p|] eqn:F; simpl option_map; [| reflexivity].
  apply find_char_bounds in F. cbv beta iota.
  rewrite substr_ok by (simpl; lia).
  rewrite substr_from_ok by (simpl; lia).
  cbn [bind].
  replace (S (S (S (S (S (S (S (S (S (S p))))))))) - 10) with p by lia.
  replace (S (S (S (S (S (S (S (S (S (S p))))))))) + 1) with (10 + S p) by lia.
  reflexivity.
Qed.

Lemma parse_line_message (rest : string) :
  parse_line ("MESSAGE " ++ rest) m file
  = match find_char rest " " 0 with
    | Some p => Ok (emplace_message m (take p rest) (drop (S p) rest), file)
    | None => Ok (m, file)
    end.
Proof.
  unfold parse_line.
  replace (starts_with ("MESSAGE " ++ rest) "FROM ") with (Ok false)
    by reflexivity.
  replace (starts_with ("MESSAGE " ++ rest) "PARAMETER ") with (Ok false)
    by reflexivity.
  replace (starts_with ("MESSAGE " ++ rest) "TEMPLATE ") with (Ok false)
    by reflexivity.
  replace (starts_with ("MESSAGE " ++ rest) "SYSTEM ") with (Ok false)
    by reflexivity.
  replace (starts_with ("MESSAGE " ++ rest) "ADAPTER ") with (Ok false)
    by reflexivity.
  replace (starts_with ("MESSAGE " ++ rest) "LICENSE ") with (Ok false)
    by reflexivity.
  replace (starts_with ("MESSAGE " ++ rest) "MESSAGE ") with (Ok true)
    by reflexivity.
  cbn [bind].
  rewrite (find_char_skip "MESSAGE " rest " " 0
           : find_char ("MESSAGE " ++ rest) " " 8 = _).
  change (String.length "MESSAGE ") with 8.
  destruct (find_char rest " " 0) as [p|] eqn:F; simpl option_map; [| reflexivity].
  apply find_char_bounds in F. cbv beta iota.
  rewrite substr_ok by (simpl; lia).
  rewrite substr_from_ok by (simpl; lia).
  cbn [bind].
  replace (S (S (S (S (S (S (S (S p))))))) - 8) with p by lia.
  replace (S (S (S (S (S (S (S (S p))))))) + 1) with (8 + S p) by lia.
  reflexivity.
Qed.

Lemma parse_line_parameter_pair (key value : string) :
  find_char key " " 0 = None ->
  parse_line ("PARAMETER " ++ key ++ String " " value) m file
  = Ok (emplace_parameter m key value, file).
Proof.
  intros H. rewrite parse_line_parameter, (find_char_hit _ _ _ H).
  rewrite take_app.
  replace (S (String.length key)) with (String.length key + 1) by lia.
  now rewrite (drop_add key (String " " value) 1).
Qed.

Lemma parse_line_message_pair (role content : string) :
  find_char role " " 0 = None ->
  parse_line ("MESSAGE " ++ role ++ String " " content) m file
  = Ok (emplace_message m role content, file).
Proof.
  intros H. rewrite parse_line_message, (find_char_hit _ _ _ H).
  rewrite take_app.
  replace (S (String.length role)) with (String.length role + 1) by lia.
  now rewrite (drop_add role (String " " content) 1).
Qed.

End ParseLine.

(** ** Reading from the stream *)

Section Stream.

Lemma fgets_scan_split (n : nat) (s l r : string) :
  fgets_scan n s = (l, r) -> s = l ++ r /\ String.length l <= n.
Proof.
  revert s l r; induction n as [|n IH]; intros s l r H.
  - simpl in H. injection H as <- <-. split; [reflexivity | simpl; lia].
  - destruct s as [|c s]; simpl in H.
    + injection H as <- <-. split; [reflexivity | simpl; lia].
    + destruct (Ascii.eqb c NL).
      * injection H as <- <-. split; [reflexivity | simpl; lia].
      * destruct (fgets_scan n s) as [l' r'] eqn:E.
        injection H as <- <-. destruct (IH _ _ _ E) as [-> Hl].
        split; [reflexivity | simpl; lia].
Qed.

Lemma fgets_scan_nonempty (n : nat) (c : ascii) (s l r : string) :
  fgets_scan (S n) (String c s) = (l, r) -> l <> EmptyString.
Proof.
  simpl. destruct (Ascii.eqb c NL).
  - intros H; injection H as <- <-. discriminate.
  - destruct (fgets_scan n s). intros H; injection H as <- <-. discriminate.
Qed.

Lemma fgets_split (file : FILE) (b : string) (file' : FILE) :
  fgets buffer_size file = Some (b, file') ->
  file = b ++ file' /\ b <> EmptyString
  /\ String.length b <= buffer_size - 1.
Proof.
  unfold fgets. destruct file as [|c s]; [discriminate |].
  intros H.
  assert (H' : fgets_scan (buffer_size - 1) (String c s) = (b, file'))
    by congruence.
  clear H. pose proof (fgets_scan_split _ _ _ _ H') as [E L].
  split; [exact E | split; [| exact L]].
  change (buffer_size - 1) with (S 1022) in H'.
  exact (fgets_scan_nonempty _ _ _ _ _ H').
Qed.

Lemma fgets_shorter (file : FILE) (b : string) (file' : FILE) :
  fgets buffer_size file = Some (b, file') ->
  String.length file' < String.length file.
Proof.
  intros H. destruct (fgets_split _ _ _ H) as (-> & Hb & _).
  rewrite length_app. destruct b; [congruence | simpl; lia].
Qed.

Lemma fgets_eof (file : FILE) :
  fgets buffer_size file = None -> file = EmptyString.
Proof. unfold fgets. now destruct file. Qed.

Lemma lacks_cons (c x : ascii) (s : string) :
  lacks c (String x s) <-> x <> c /\ lacks c s.
Proof.
  unfold lacks. simpl. destruct (Ascii.eqb_spec x c) as [->|ne].
  - split; [discriminate | intros [H _]; congruence].
  - destruct (find_char s c 0); simpl; split; try discriminate;
      try (intros [_ H]; discriminate); auto.
Qed.

Lemma lacks_app (c : ascii) (a b : string) :
  lacks c (a ++ b) <-> lacks c a /\ lacks c b.
Proof.
  induction a as [|x a IH]; simpl.
  - split; [intros H; split; [reflexivity | exact H] | now intros [_ H]].
  - rewrite !lacks_cons, IH. tauto.
Qed.

(** A line that ends in a newline and fits the buffer is read whole. *)
Lemma fgets_scan_line (n : nat) (l rest : string) :
  lacks NL l -> String.length l < n ->
  fgets_scan n (l ++ String NL rest) = (l ++ String NL EmptyString, rest).
Proof.
  revert l; induction n as [|n IH]; intros l Hl Hn; [lia |].
  destruct l as [|c l]; simpl.
  - reflexivity.
  - apply lacks_cons in Hl as [Hc Hl].
    destruct (Ascii.eqb_spec c NL); [congruence |].
    rewrite IH; [reflexivity | exact Hl | simpl in Hn; lia].
Qed.

Lemma fgets_line (l rest : string) :
  lacks NL l -> String.length l + 1 < buffer_size ->
  fgets buffer_size (l ++ String NL rest)
  = Some (l ++ String NL EmptyString, rest).
Proof.
  intros Hl Hn. unfold fgets.
  destruct (l ++ String NL rest) eqn:E; [now destruct l |].
  rewrite <- E. f_equal. apply fgets_scan_line; [exact Hl |].
  unfold buffer_size in *. lia.
Qed.

Lemma string_of_buffer_id (s : string) :
  lacks NUL s -> string_of_buffer s = s.
Proof.
  induction s as [|c s IH]; simpl; intros H; [reflexivity |].
  apply lacks_cons in H as [Hc Hs].
  destruct (Ascii.eqb_spec c NUL); [congruence |]. now rewrite IH.
Qed.

End Stream.

(** ** Right trimming *)

Section Trim.

Variable chars : string.

Lemma find_last_not_of_ws (s w : string) :
  all_in chars w = true ->
  find_last_not_of (s ++ w) chars = find_last_not_of s chars.
Proof.
  intros Hw. induction s as [|c s IH]; simpl.
  - induction w as [|d w IHw]; simpl; [reflexivity |].
    simpl in Hw. apply andb_true_iff in Hw as [Hd Hw].
    now rewrite (IHw Hw), Hd.
  - now rewrite IH.
Qed.

Lemma find_last_not_of_last (s : string) (c : ascii) :
  mem c chars = false ->
  find_last_not_of (s ++ String c EmptyString) chars = Some (String.length s).
Proof.
  intros Hc. induction s as [|d s IH]; simpl.
  - now rewrite Hc.
  - now rewrite IH.
Qed.

Lemma find_last_not_of_bound (s : string) :
  succ_size_t (find_last_not_of s chars) <= String.length s.
Proof.
  induction s as [|c s IH]; simpl; [lia |].
  destruct (find_last_not_of s chars); simpl in *; [lia |].
  destruct (mem c chars); simpl; lia.
Qed.

(** A string is all trimmed characters, or splits at its last
    character that is not. *)
Lemma split_at_last_kept (s : string) :
  all_in chars s = true
  \/ exists a c w, s = a ++ String c w /\ mem c chars = false
                   /\ all_in chars w = true.
Proof.
  induction s as [|x s [IH | (a & c & w & -> & Hc & Hw)]]; simpl.
  - now left.
  - destruct (mem x chars) eqn:Hx.
    + now left.
    + right. exists EmptyString, x, s. now repeat split.
  - right. exists (String x a), c, w. now repeat split.
Qed.

End Trim.

Section TrimLine.

Lemma erase_rtrim (s : string) :
  erase s (succ_size_t (find_last_not_of s trim_chars)) = Ok (rtrim s).
Proof.
  unfold erase, rtrim.
  pose proof (find_last_not_of_bound trim_chars s).
  destruct (Nat.ltb_spec (String.length s)
              (succ_size_t (find_last_not_of s trim_chars)));
    [lia | reflexivity].
Qed.

Lemma rtrim_blank (w : string) :
  all_in trim_chars w = true -> rtrim w = EmptyString.
Proof.
  intros Hw. unfold rtrim.
  pose proof (find_last_not_of_ws trim_chars EmptyString w Hw) as E.
  simpl in E. rewrite E. simpl. now destruct w.
Qed.

Lemma rtrim_kept (a w : string) (c : ascii) :
  mem c trim_chars = false -> all_in trim_chars w = true ->
  rtrim (a ++ String c w) = a ++ String c EmptyString.
Proof.
  intros Hc Hw. unfold rtrim.
  change (a ++ String c w) with (a ++ (String c EmptyString ++ w)).
  rewrite <- app_assoc_s, find_last_not_of_ws by exact Hw.
  rewrite find_last_not_of_last by exact Hc. simpl succ_size_t.
  replace (S (String.length a)) with (String.length (a ++ String c EmptyString))
    by (rewrite length_app; simpl; lia).
  apply take_app.
Qed.

Lemma ends_clean_split (s : string) :
  ends_clean s = true <->
  exists a c, s = a ++ String c EmptyString /\ mem c trim_chars = false.
Proof.
  unfold ends_clean. split.
  - intros H. induction s as [|x s IH]; simpl in H; [discriminate |].
    destruct s as [|y s].
    + exists EmptyString, x. split; [reflexivity |].
      now apply negb_true_iff in H.
    + destruct (IH H) as (a & c & E & Hc).
      exists (String x a), c. split; [simpl; now rewrite <- E | exact Hc].
  - intros (a & c & -> & Hc). rewrite back_app_char. now rewrite Hc.
Qed.

(** A trimmed line is empty or ends in a character that is kept. *)
Lemma rtrim_ends_clean (s : string) :
  rtrim s = EmptyString \/ ends_clean (rtrim s) = true.
Proof.
  destruct (split_at_last_kept trim_chars s) as [H | (a & c & w & -> & Hc & Hw)].
  - left. now apply rtrim_blank.
  - right. rewrite (rtrim_kept _ _ _ Hc Hw).
    apply ends_clean_split. now exists a, c.
Qed.

(** Trimming removes trailing blanks and nothing else. *)
Lemma rtrim_clean (s w : string) :
  ends_clean s = true -> all_in trim_chars w = true -> rtrim (s ++ w) = s.
Proof.
  intros Hs Hw. apply ends_clean_split in Hs as (a & c & -> & Hc).
  rewrite app_assoc_s. simpl. now apply rtrim_kept.
Qed.

End TrimLine.

(** ** Every line is handled without an exception *)

Lemma line_shape_cases (line : string) : line_shape line.
Proof.
  destruct (prefix "FROM " line) eqn:H1;
    [apply prefix_inv in H1 as [v ->]; now eapply shape_from |].
  destruct (prefix "PARAMETER " line) eqn:H2;
    [apply prefix_inv in H2 as [v ->]; now eapply shape_parameter |].
  destruct (prefix "TEMPLATE " line) eqn:H3;
    [apply prefix_inv in H3 as [v ->]; now eapply shape_template |].
  destruct (prefix "SYSTEM " line) eqn:H4;
    [apply prefix_inv in H4 as [v ->]; now eapply shape_system |].
  destruct (prefix "ADAPTER " line) eqn:H5;
    [apply prefix_inv in H5 as [v ->]; now eapply shape_adapter |].
  destruct (prefix "LICENSE " line) eqn:H6;
    [apply prefix_inv in H6 as [v ->]; now eapply shape_license |].
  destruct (prefix "MESSAGE " line) eqn:H7;
    [apply prefix_inv in H7 as [v ->]; now eapply shape_message |].
  now apply shape_other.
Qed.

Section ParseLineMore.

Variables (m : ModelFile) (file : FILE).

Lemma parse_line_system (v : string) :
  parse_line ("SYSTEM " ++ v) m file
  = match find v marker with
    | Some _ =>
        '(more, file') <- read_multiline file ;;
        Ok (set_system m (v ++ String NL more), file')
    | None => Ok (set_system m v, file)
    end.
Proof. reflexivity. Qed.

Lemma parse_line_license (v : string) :
  parse_line ("LICENSE " ++ v) m file
  = match find v marker with
    | Some _ =>
        '(more, file') <- read_multiline file ;;
        Ok (set_license m (v ++ String NL more), file')
    | None => Ok (set_license m v, file)
    end.
Proof. reflexivity. Qed.

Lemma parse_line_other (line : string) :
  prefix "FROM " line = false -> prefix "PARAMETER " line = false ->
  prefix "TEMPLATE " line = false -> prefix "SYSTEM " line = false ->
  prefix "ADAPTER " line = false -> prefix "LICENSE " line = false ->
  prefix "MESSAGE " line = false ->
  parse_line line m file = Ok (m, file).
Proof.
  intros H1 H2 H3 H4 H5 H6 H7. unfold parse_line.
  rewrite !starts_with_prefix. cbn [bind].
  rewrite H1, H2. cbn [bind]. rewrite H3. cbn [bind]. rewrite H4. cbn [bind].
  rewrite H5. cbn [bind]. rewrite H6. cbn [bind]. now rewrite H7.
Qed.

End ParseLineMore.

Section Totality.

Lemma rest_of_refl (file : FILE) : rest_of file file.
Proof. now exists EmptyString. Qed.

Lemma rest_of_trans (f1 f2 f3 : FILE) :
  rest_of f1 f2 -> rest_of f2 f3 -> rest_of f1 f3.
Proof.
  intros [p ->] [q ->]. exists (p ++ q). now rewrite app_assoc_s.
Qed.

Lemma rest_of_length (f1 f2 : FILE) :
  rest_of f1 f2 -> String.length f2 <= String.length f1.
Proof. intros [p ->]. rewrite length_app. lia. Qed.

Lemma fgets_rest_of (file : FILE) (b : string) (file' : FILE) :
  fgets buffer_size file = Some (b, file') -> rest_of file file'.
Proof. intros H. exists b. now apply fgets_split in H. Qed.

Lemma read_multiline_loop_fuel (fuel1 fuel2 : nat) (file : FILE) (acc : string) :
  String.length file < fuel1 -> String.length file < fuel2 ->
  read_multiline_loop fuel1 file acc = read_multiline_loop fuel2 file acc.
Proof.
  revert fuel2 file acc; induction fuel1 as [|fuel1 IH];
    intros [|fuel2] file acc H1 H2; try lia.
  simpl. destruct (fgets buffer_size file) as [[b file']|] eqn:E;
    [| reflexivity].
  destruct (find (string_of_buffer b) marker); [reflexivity |].
  apply fgets_shorter in E. apply IH; lia.
Qed.

Lemma read_multiline_loop_ok (fuel : nat) (file : FILE) (acc : string) :
  String.length file < fuel ->
  exists res file', read_multiline_loop fuel file acc = Ok (res, file')
                    /\ rest_of file file'.
Proof.
  revert file acc; induction fuel as [|fuel IH]; intros file acc H; [lia |].
  simpl. destruct (fgets buffer_size file) as [[b file']|] eqn:E.
  - destruct (find (string_of_buffer b) marker).
    + eexists _, _. split; [reflexivity | now apply fgets_rest_of in E].
    + pose proof (fgets_shorter _ _ _ E) as L.
      destruct (IH file' (acc ++ string_of_buffer b)) as (res & f & R & S);
        [lia |].
      exists res, f. split; [exact R |].
      eapply rest_of_trans; [eapply fgets_rest_of; exact E | exact S].
  - eexists _, _. split; [reflexivity | apply rest_of_refl].
Qed.

Lemma read_multiline_ok (file : FILE) :
  exists res file', read_multiline file = Ok (res, file')
                    /\ rest_of file file'.
Proof.
  unfold read_multiline.
  destruct (read_multiline_loop_ok (S (String.length file)) file EmptyString)
    as (res & f & R & S); [lia |].
  rewrite R. cbn [bind].
  destruct (negb (empty res) && _); eexists _, _; split;
    try reflexivity; exact S.
Qed.

(** [parse_line] never throws and never moves the stream backwards. *)
Lemma parse_line_ok (line : string) (m : ModelFile) (file : FILE) :
  exists m' file', parse_line line m file = Ok (m', file')
                   /\ rest_of file file'.
Proof.
  destruct (line_shape_cases line) as [v ->|rest ->|v ->|v ->|v ->|v ->|rest ->|];
    try (eexists _, _; split; [reflexivity | apply rest_of_refl]).
  - rewrite parse_line_parameter.
    destruct (find_char rest " " 0); eexists _, _;
      (split; [reflexivity | apply rest_of_refl]).
  - rewrite parse_line_system. destruct (find v marker).
    + destruct (read_multiline_ok file) as (res & f & R & S).
      rewrite R. eexists _, _. split; [reflexivity | exact S].
    + eexists _, _; split; [reflexivity | apply rest_of_refl].
  - rewrite parse_line_license. destruct (find v marker).
    + destruct (read_multiline_ok file) as (res & f & R & S).
      rewrite R. eexists _, _. split; [reflexivity | exact S].
    + eexists _, _; split; [reflexivity | apply rest_of_refl].
  - rewrite parse_line_message.
    destruct (find_char rest " " 0); eexists _, _;
      (split; [reflexivity | apply rest_of_refl]).
  - rewrite parse_line_other by assumption.
    eexists _, _; split; [reflexivity | apply rest_of_refl].
Qed.

End Totality.

(** ** The main loop *)

Section MainLoop.

Lemma parse_modelfile_loop_unfold (fuel : nat) (file : FILE) (m : ModelFile) :
  parse_modelfile_loop (S fuel) file m
  = match fgets buffer_size file with
    | None => Ok m
    | Some (b, file') =>
        let line := rtrim (string_of_buffer b) in
        if skipped line then parse_modelfile_loop fuel file' m
        else '(m', file'') <- parse_line line m file' ;;
             parse_modelfile_loop fuel file'' m'
    end.
Proof.
  simpl. destruct (fgets buffer_size file) as [[b f]|]; [| reflexivity].
  now rewrite erase_rtrim.
Qed.

Lemma parse_modelfile_loop_fuel (fuel1 fuel2 : nat) (file : FILE) (m : ModelFile) :
  String.length file < fuel1 -> String.length file < fuel2 ->
  parse_modelfile_loop fuel1 file m = parse_modelfile_loop fuel2 file m.
Proof.
  revert fuel2 file m; induction fuel1 as [|fuel1 IH];
    intros [|fuel2] file m H1 H2; try lia.
  rewrite !parse_modelfile_loop_unfold.
  destruct (fgets buffer_size file) as [[b file']|] eqn:E; [| reflexivity].
  pose proof (fgets_shorter _ _ _ E) as L. cbv zeta.
  destruct (skipped (rtrim (string_of_buffer b))).
  - apply IH; lia.
  - destruct (parse_line_ok (rtrim (string_of_buffer b)) m file')
      as (m' & f & R & S).
    rewrite R. cbn [bind]. apply rest_of_length in S. apply IH; lia.
Qed.

Lemma parse_stream_unfold (file : FILE) (m : ModelFile) :
  parse_stream file m
  = match fgets buffer_size file with
    | None => Ok m
    | Some (b, file') =>
        let line := rtrim (string_of_buffer b) in
        if skipped line then parse_stream file' m
        else '(m', file'') <- parse_line line m file' ;;
             parse_stream file'' m'
    end.
Proof.
  unfold parse_stream. rewrite parse_modelfile_loop_unfold.
  destruct (fgets buffer_size file) as [[b file']|] eqn:E; [| reflexivity].
  pose proof (fgets_shorter _ _ _ E) as L. cbv zeta.
  destruct (skipped (rtrim (string_of_buffer b))).
  - apply parse_modelfile_loop_fuel; lia.
  - destruct (parse_line_ok (rtrim (string_of_buffer b)) m file')
      as (m' & f & R & S).
    rewrite R. cbn [bind]. apply rest_of_length in S.
    apply parse_modelfile_loop_fuel; lia.
Qed.

(** Invariants of the main loop: [P] relates the unread text and the
    model; it has to survive a dropped line and a handled one. *)
Lemma parse_stream_invariant (P : FILE -> ModelFile -> Prop) :
  (forall file m b file1,
      P file m -> fgets buffer_size file = Some (b, file1) ->
      skipped (rtrim (string_of_buffer b)) = true -> P file1 m) ->
  (forall file m b file1 m' file2,
      P file m -> fgets buffer_size file = Some (b, file1) ->
      skipped (rtrim (string_of_buffer b)) = false ->
      parse_line (rtrim (string_of_buffer b)) m file1 = Ok (m', file2) ->
      P file2 m') ->
  forall file m, P file m ->
  exists m', parse_stream file m = Ok m' /\ P EmptyString m'.
Proof.
  intros Hskip Hline file.
  remember (String.length file) as n eqn:En.
  revert file En. induction n as [n IH] using lt_wf_ind.
  intros file -> m HP. rewrite parse_stream_unfold.
  destruct (fgets buffer_size file) as [[b file1]|] eqn:E.
  - pose proof (fgets_shorter _ _ _ E) as L. cbv zeta.
    destruct (skipped (rtrim (string_of_buffer b))) eqn:Sk.
    + apply (IH _ L file1 eq_refl). eapply Hskip; eassumption.
    + destruct (parse_line_ok (rtrim (string_of_buffer b)) m file1)
        as (m' & f & R & S).
      rewrite R. cbn [bind]. pose proof (rest_of_length _ _ S) as L'.
      apply (IH (String.length f)); [lia | reflexivity |].
      eapply Hline; eassumption.
  - exists m. split; [reflexivity |].
    apply fgets_eof in E. now subst file.
Qed.

(** [parse_modelfile] always returns a document. *)
Lemma parse_modelfile_ok (fs : filesystem) (filename : string) :
  exists doc, parse_modelfile fs filename = Ok doc.
Proof.
  unfold parse_modelfile. destruct (fopen fs filename) as [file|].
  - destruct (parse_stream_invariant (fun _ _ => True)) with (file := file)
      (m := empty_model) as (doc & R & _); auto.
    now exists doc.
  - now exists empty_model.
Qed.

End MainLoop.

(** ** The lines a stream yields *)

Section Reads.


Lemma reads_line (l : string) (rest : FILE) :
  short_line l ->
  reads (l ++ String NL rest) [l ++ String NL EmptyString] rest.
Proof.
  intros (Hnl & Hnul & Hlen).
  rewrite <- (string_of_buffer_id (l ++ String NL EmptyString)).
  - econstructor; [now apply fgets_line | constructor].
  - apply lacks_app. split; [exact Hnul | reflexivity].
Qed.


(** Every stream yields some sequence of lines up to its end. *)
Lemma reads_total (file : FILE) : exists ls, reads file ls EmptyString.
Proof.
  remember (String.length file) as n eqn:En. revert file En.
  induction n as [n IH] using lt_wf_ind. intros file ->.
  destruct (fgets buffer_size file) as [[b file1]|] eqn:E.
  - destruct (IH _ (fgets_shorter _ _ _ E) file1 eq_refl) as [ls R].
    eexists. econstructor; eassumption.
  - apply fgets_eof in E as ->. exists []. constructor.
Qed.



Lemma read_multiline_chomp (file : FILE) :
  read_multiline file
  = '(result, file') <- read_multiline_loop (S (String.length file)) file
                          EmptyString ;;
    Ok (chomp result, file').
Proof.
  unfold read_multiline, chomp.
  destruct (read_multiline_loop _ file EmptyString) as [[r f]| |];
    [| reflexivity | reflexivity].
  cbn [bind]. now destruct (negb (empty r) && _).
Qed.

(** The loop of [read_multiline] stops at the first line that holds the
    marker and keeps every line up to it. *)
Lemma read_multiline_loop_closed (body : list string) (closing : string)
      (file file' : FILE) (acc : string) (fuel : nat) :
  String.length file < fuel ->
  reads file (body ++ [closing]) file' ->
  Forall (fun l => has_marker l = false) body ->
  has_marker closing = true ->
  read_multiline_loop fuel file acc
  = Ok (acc ++ join body ++ closing, file').
Proof.
  intros Hfuel R Hbody Hclosing. revert file acc fuel Hfuel R.
  induction Hbody as [|l body Hl _ IH]; intros file acc fuel Hfuel R.
  - inversion R as [|f b f1 ls f2 E R' Ef]; subst.
    inversion R'; subst. destruct fuel; [lia |]. simpl.
    rewrite E. unfold has_marker in Hclosing.
    now destruct (find (string_of_buffer b) marker).
  - inversion R as [|f b f1 ls f2 E R' Ef]; subst.
    destruct fuel; [lia |]. simpl. rewrite E.
    unfold has_marker in Hl.
    destruct (find (string_of_buffer b) marker); [discriminate |].
    apply fgets_shorter in E.
    rewrite IH with (file := f1); [| lia | exact R'].
    now rewrite !app_assoc_s.
Qed.


Lemma read_multiline_closed (body : list string) (closing : string)
      (file file' : FILE) :
  reads file (body ++ [closing]) file' ->
  Forall (fun l => has_marker l = false) body ->
  has_marker closing = true ->
  read_multiline file = Ok (chomp (join body ++ closing), file').
Proof.
  intros R Hb Hc. rewrite read_multiline_chomp.
  rewrite (read_multiline_loop_closed body closing file file'); auto.
Qed.


End Reads.

(** ** Whole files *)

Section WholeFile.

Lemma parse_text_stream (text : string) :
  parse_text text = parse_stream text empty_model.
Proof. reflexivity. Qed.

(** One round of the main loop, on the line the stream yields next. *)
Lemma parse_stream_step (raw : string) (file file1 : FILE) (m : ModelFile) :
  reads file [raw] file1 ->
  parse_stream file m
  = if skipped (rtrim raw) then parse_stream file1 m
    else '(m', file2) <- parse_line (rtrim raw) m file1 ;;
         parse_stream file2 m'.
Proof.
  intros R. inversion R as [|f b f1 ls f2 E R' Ef]; subst.
  inversion R'; subst. rewrite parse_stream_unfold, E. reflexivity.
Qed.

Lemma has_marker_find (s : string) :
  has_marker s = true -> exists p, find s marker = Some p.
Proof.
  unfold has_marker. destruct (find s marker) as [p|]; [| discriminate].
  now exists p.
Qed.

End WholeFile.

(** ** Lines of ordinary text in the main loop *)

Section TextLines.

Lemma ends_clean_app (a v : string) :
  ends_clean v = true -> ends_clean (a ++ v) = true.
Proof.
  unfold ends_clean. intros H. rewrite back_app; [exact H |].
  intros ->. discriminate.
Qed.

Lemma short_line_app (a v : string) :
  short_line a -> lacks NL v -> lacks NUL v ->
  String.length a + String.length v + 1 < buffer_size ->
  short_line (a ++ v).
Proof.
  intros (H1 & H2 & _) Hnl Hnul Hlen. unfold short_line.
  rewrite !lacks_app, length_app. auto.
Qed.

(** One round of the main loop on a line that needs no trimming. *)
Lemma parse_stream_line (l : string) (rest : FILE) (m : ModelFile) :
  short_line l -> ends_clean l = true ->
  parse_stream (l ++ String NL rest) m
  = if skipped l then parse_stream rest m
    else '(m', file') <- parse_line l m rest ;; parse_stream file' m'.
Proof.
  intros Hl Hc.
  rewrite (parse_stream_step _ _ _ m (reads_line l rest Hl)).
  now rewrite (rtrim_clean l (String NL EmptyString) Hc eq_refl).
Qed.

End TextLines.

(** The main loop on a line that holds a keyword and a value. *)
Lemma parse_stream_keyword (kw v : string) (file : FILE) (m : ModelFile) :
  short_line kw -> String.length kw < 10 ->
  lacks NL v -> lacks NUL v -> String.length v + 10 < buffer_size ->
  ends_clean v = true ->
  parse_stream ((kw ++ v) ++ String NL file) m
  = if skipped (kw ++ v) then parse_stream file m
    else '(m', file') <- parse_line (kw ++ v) m file ;; parse_stream file' m'.
Proof.
  intros Hkw Hk Hnl Hnul Hlen Hclean. apply parse_stream_line.
  - apply short_line_app; try assumption. unfold buffer_size in *. lia.
  - now apply ends_clean_app.
Qed.

(** ** What one line does to the two sequences *)

Section Sequences.

Lemma pair_after_keyword (kw rest : string) :
  pair_after kw (kw ++ rest)
  = match find_char rest " " 0 with
    | Some p => [(take p rest, drop (S p) rest)]
    | None => []
    end.
Proof. unfold pair_after. now rewrite prefix_app, drop_app. Qed.

Lemma pair_after_no_prefix (kw line : string) :
  prefix kw line = false -> pair_after kw line = [].
Proof. unfold pair_after. now intros ->. Qed.

Lemma parse_line_sequences (line : string) (m m' : ModelFile) (file file' : FILE) :
  parse_line line m file = Ok (m', file') ->
  parameters m' = (parameters m ++ pair_after "PARAMETER " line)%list
  /\ messages m' = (messages m ++ pair_after "MESSAGE " line)%list.
Proof.
  intros H.
  destruct (line_shape_cases line) as [v ->|rest ->|v ->|v ->|v ->|v ->|rest ->|].
  - rewrite parse_line_from in H. injection H as <- <-.
    rewrite !pair_after_no_prefix by reflexivity. simpl. now rewrite !app_nil_r.
  - rewrite parse_line_parameter in H. rewrite pair_after_keyword.
    rewrite (pair_after_no_prefix "MESSAGE ") by reflexivity.
    destruct (find_char rest " " 0); injection H as <- <-; simpl;
      now rewrite !app_nil_r.
  - rewrite parse_line_template in H. injection H as <- <-.
    rewrite !pair_after_no_prefix by reflexivity. simpl. now rewrite !app_nil_r.
  - rewrite parse_line_system in H.
    rewrite !pair_after_no_prefix by reflexivity.
    destruct (find v marker).
    + destruct (read_multiline file) as [[r f]| |]; try discriminate.
      injection H as <- <-. simpl. now rewrite !app_nil_r.
    + injection H as <- <-. simpl. now rewrite !app_nil_r.
  - rewrite parse_line_adapter in H. injection H as <- <-.
    rewrite !pair_after_no_prefix by reflexivity. simpl. now rewrite !app_nil_r.
  - rewrite parse_line_license in H.
    rewrite !pair_after_no_prefix by reflexivity.
    destruct (find v marker).
    + destruct (read_multiline file) as [[r f]| |]; try discriminate.
      injection H as <- <-. simpl. now rewrite !app_nil_r.
    + injection H as <- <-. simpl. now rewrite !app_nil_r.
  - rewrite parse_line_message in H. rewrite pair_after_keyword.
    rewrite (pair_after_no_prefix "PARAMETER ") by reflexivity.
    destruct (find_char rest " " 0); injection H as <- <-; simpl;
      now rewrite !app_nil_r.
  - rewrite parse_line_other in H by assumption. injection H as <- <-.
    rewrite !pair_after_no_prefix by assumption. now rewrite !app_nil_r.
Qed.

Lemma find_char_split (s : string) (c : ascii) (p : nat) :
  find_char s c 0 = Some p -> s = take p s ++ String c (drop (S p) s).
Proof.
  revert p; induction s as [|x s IH]; simpl; intros p H; [discriminate |].
  destruct (Ascii.eqb_spec x c) as [->|ne].
  - injection H as <-. reflexivity.
  - destruct (find_char s c 0) as [q|]; [| discriminate].
    injection H as <-. simpl. f_equal. exact (IH q eq_refl).
Qed.

Lemma ends_clean_after_space (a v : string) :
  ends_clean (a ++ String " " v) = true -> ends_clean v = true.
Proof.
  unfold ends_clean. rewrite back_app by discriminate.
  destruct v as [|c v]; simpl; [discriminate | trivial].
Qed.

Lemma pair_after_clean (kw line : string) :
  ends_clean line = true ->
  Forall (fun kv => ends_clean (snd kv) = true) (pair_after kw line).
Proof.
  intros H. unfold pair_after.
  destruct (prefix kw line) eqn:P; [| constructor].
  apply prefix_inv in P as [rest ->]. rewrite drop_app.
  destruct (find_char rest " " 0) as [p|] eqn:F; [| constructor].
  constructor; [| constructor]. simpl.
  rewrite (find_char_split _ _ _ F), <- app_assoc_s in H.
  exact (ends_clean_after_space _ _ H).
Qed.

Lemma ends_clean_value_ok (v : string) : ends_clean v = true -> value_ok v.
Proof.
  unfold ends_clean, value_ok. destruct (back v) as [c|] eqn:B; [| discriminate].
  intros H. split; [intros ->; discriminate |].
  exists c. split; [reflexivity |].
  repeat split; intros ->; discriminate.
Qed.

Lemma skipped_false_clean (s : string) :
  skipped (rtrim s) = false -> ends_clean (rtrim s) = true.
Proof.
  destruct (rtrim_ends_clean s) as [-> | H]; [discriminate | now intros _].
Qed.

End Sequences.

(** ** The lines the main loop hands over *)

Section Handled.

Lemma parse_line_stream_after (line : string) (m m' : ModelFile)
      (file file' : FILE) :
  parse_line line m file = Ok (m', file') -> file' = stream_after line file.
Proof.
  intros H. unfold stream_after.
  destruct (line_shape_cases line) as [v ->|rest ->|v ->|v ->|v ->|v ->|rest ->|].
  - rewrite parse_line_from in *. now injection H as <- <-.
  - rewrite parse_line_parameter in *.
    destruct (find_char rest " " 0); now injection H as <- <-.
  - rewrite parse_line_template in *. now injection H as <- <-.
  - rewrite parse_line_system in *. destruct (find v marker).
    + destruct (read_multiline file) as [[r f]| |]; try discriminate.
      now injection H as <- <-.
    + now injection H as <- <-.
  - rewrite parse_line_adapter in *. now injection H as <- <-.
  - rewrite parse_line_license in *. destruct (find v marker).
    + destruct (read_multiline file) as [[r f]| |]; try discriminate.
      now injection H as <- <-.
    + now injection H as <- <-.
  - rewrite parse_line_message in *.
    destruct (find_char rest " " 0); now injection H as <- <-.
  - rewrite parse_line_other in * by assumption. now injection H as <- <-.
Qed.

Lemma reads_one (file : FILE) (b : string) (file1 : FILE) :
  fgets buffer_size file = Some (b, file1) ->
  reads file [string_of_buffer b] file1.
Proof. intros E. econstructor; [exact E | constructor]. Qed.

(** Every stream has its sequence of handled lines. *)
Lemma handled_total (file : FILE) : exists hs, handled file hs.
Proof.
  remember (String.length file) as n eqn:En. revert file En.
  induction n as [n IH] using lt_wf_ind. intros file ->.
  destruct (fgets buffer_size file) as [[b file1]|] eqn:E.
  - pose proof (fgets_shorter _ _ _ E) as L.
    destruct (skipped (rtrim (string_of_buffer b))) eqn:Sk.
    + destruct (IH _ L file1 eq_refl) as [hs H].
      exists hs. eapply handled_skip; [apply reads_one; exact E | exact Sk | exact H].
    + destruct (parse_line_ok (rtrim (string_of_buffer b)) empty_model file1)
        as (m' & f & R & S).
      pose proof (parse_line_stream_after _ _ _ _ _ R) as Ef.
      apply rest_of_length in S.
      destruct (IH (String.length f) ltac:(lia) f eq_refl) as [hs H].
      exists (rtrim (string_of_buffer b) :: hs).
      eapply handled_line; [apply reads_one; exact E | exact Sk |].
      now rewrite <- Ef.
  - apply fgets_eof in E as ->. exists []. constructor.
Qed.

(** The two sequences of the document are what the handled lines hold,
    in their order, after what the model held before. *)
Lemma parse_stream_handled (file : FILE) (hs : list string) :
  handled file hs ->
  forall m, exists doc,
    parse_stream file m = Ok doc
    /\ parameters doc
       = (parameters m ++ flat_map (pair_after "PARAMETER ") hs)%list
    /\ messages doc
       = (messages m ++ flat_map (pair_after "MESSAGE ") hs)%list.
Proof.
  induction 1 as [|file raw file1 hs R Sk _ IH|file raw file1 hs R Sk _ IH];
    intros m.
  - exists m. simpl. now rewrite !app_nil_r.
  - rewrite (parse_stream_step _ _ _ m R), Sk. apply IH.
  - rewrite (parse_stream_step _ _ _ m R), Sk.
    destruct (parse_line_ok (rtrim raw) m file1) as (m' & f & PL & _).
    rewrite PL. cbn [bind].
    rewrite (parse_line_stream_after _ _ _ _ _ PL).
    destruct (parse_line_sequences _ _ _ _ _ PL) as [Ep Em].
    destruct (IH m') as (doc & Rn & Hp & Hm).
    exists doc. split; [exact Rn |].
    rewrite Hp, Hm, Ep, Em. simpl. now rewrite <- !app_assoc.
Qed.

Lemma opens_continuation_system (v : string) :
  opens_continuation ("SYSTEM " ++ v) = has_marker v.
Proof.
  unfold opens_continuation. rewrite prefix_app.
  replace (prefix "LICENSE " ("SYSTEM " ++ v)) with false by reflexivity.
  change (drop 7 ("SYSTEM " ++ v)) with v.
  now rewrite andb_true_l, andb_false_l, orb_false_r.
Qed.

Lemma opens_continuation_license (v : string) :
  opens_continuation ("LICENSE " ++ v) = has_marker v.
Proof.
  unfold opens_continuation. rewrite prefix_app.
  replace (prefix "SYSTEM " ("LICENSE " ++ v)) with false by reflexivity.
  change (drop 8 ("LICENSE " ++ v)) with v.
  now rewrite andb_true_l, andb_false_l, orb_false_l.
Qed.

Lemma stream_after_plain (line : string) (file : FILE) :
  opens_continuation line = false -> stream_after line file = file.
Proof.
  unfold stream_after. intros H.
  destruct (line_shape_cases line) as [v ->|rest ->|v ->|v ->|v ->|v ->|rest ->|];
    try reflexivity.
  - rewrite parse_line_parameter. now destruct (find_char rest " " 0).
  - rewrite parse_line_system. rewrite opens_continuation_system in H.
    unfold has_marker in H. now destruct (find v marker).
  - rewrite parse_line_license. rewrite opens_continuation_license in H.
    unfold has_marker in H. now destruct (find v marker).
  - rewrite parse_line_message. now destruct (find_char rest " " 0).
  - now rewrite parse_line_other by assumption.
Qed.

Lemma rtrim_newline (l : string) : rtrim (l ++ String NL EmptyString) = rtrim l.
Proof.
  destruct (split_at_last_kept trim_chars l) as [H | (a & c & w & -> & Hc & Hw)].
  - rewrite (rtrim_blank l H). apply rtrim_blank.
    induction l as [|x l IH]; simpl in *; [reflexivity |].
    apply andb_true_iff in H as [-> H]. now apply IH.
  - rewrite (rtrim_kept a w c Hc Hw).
    rewrite app_assoc_s. simpl. apply rtrim_kept; [exact Hc |].
    induction w as [|x w IH]; simpl in *; [reflexivity |].
    apply andb_true_iff in Hw as [-> Hw]. now apply IH.
Qed.

Lemma handled_text (ls : list string) :
  Forall short_line ls ->
  Forall (fun l => opens_continuation (rtrim l) = false) ls ->
  handled (unlines ls)
    (filter (fun l => negb (skipped l)) (map rtrim ls)).
Proof.
  induction 1 as [|l ls Hl _ IH]; intros Hc; simpl; [constructor |].
  inversion Hc as [|l' ls' Hcl Hcs]; subst.
  pose proof (reads_line l (unlines ls) Hl) as R.
  destruct (skipped (rtrim l)) eqn:Sk; simpl.
  - eapply handled_skip; [exact R | now rewrite rtrim_newline | now apply IH].
  - rewrite <- (rtrim_newline l).
    eapply handled_line; [exact R | now rewrite rtrim_newline |].
    rewrite rtrim_newline, stream_after_plain by exact Hcl. now apply IH.
Qed.

Lemma pair_after_skipped (kw line : string) :
  kw <> EmptyString -> front kw <> Some "#"%char ->
  skipped line = true -> pair_after kw line = [].
Proof.
  intros Hne Hf Sk. apply pair_after_no_prefix.
  destruct (prefix kw line) eqn:P; [| reflexivity].
  apply prefix_inv in P as [t ->].
  destruct kw as [|c kw]; [congruence |].
  unfold skipped in Sk. simpl in Sk, Hf.
  destruct (Ascii.eqb_spec c "#"%char) as [->|]; [congruence | discriminate].
Qed.

Lemma flat_map_filter_handled (kw : string) (ls : list string) :
  kw <> EmptyString -> front kw <> Some "#"%char ->
  flat_map (pair_after kw) (filter (fun l => negb (skipped l)) ls)
  = flat_map (pair_after kw) ls.
Proof.
  intros Hne Hf. induction ls as [|l ls IH]; simpl; [reflexivity |].
  destruct (skipped l) eqn:Sk; simpl.
  - now rewrite (pair_after_skipped kw l Hne Hf Sk).
  - now rewrite IH.
Qed.

Lemma pair_after_pair (kw key value : string) :
  lacks " " key ->
  pair_after kw (kw ++ key ++ String " " value) = [(key, value)].
Proof.
  intros Hk. rewrite pair_after_keyword.
  rewrite (find_char_hit _ _ _ Hk), take_app.
  replace (S (String.length key)) with (String.length key + 1) by lia.
  now rewrite (drop_add key (String " " value) 1).
Qed.

(** Two lines with the same key among the lines: both pairs are in the
    sequence, the earlier line first. *)
Lemma flat_map_two (kw key v1 v2 : string) (pre : list (string * string))
      (a b c : list string) :
  lacks " " key ->
  exists x y z,
    (pre ++ flat_map (pair_after kw)
              (a ++ (kw ++ key ++ String " " v1)%string
                 :: b ++ (kw ++ key ++ String " " v2)%string :: c))%list
    = (x ++ (key, v1) :: y ++ (key, v2) :: z)%list.
Proof.
  intros Hk.
  exists (pre ++ flat_map (pair_after kw) a)%list,
    (flat_map (pair_after kw) b), (flat_map (pair_after kw) c).
  rewrite !flat_map_app. simpl. rewrite !flat_map_app. simpl.
  rewrite !(pair_after_pair kw key _ Hk). simpl.
  now rewrite <- !app_assoc.
Qed.

End Handled.

(** ** Fields that no line touches, and lines that touch no field *)

Section Defaults.

Lemma reads_first (file : FILE) (b : string) (file1 : FILE) (ls : list string) :
  fgets buffer_size file = Some (b, file1) ->
  reads file ls EmptyString ->
  exists ls1, ls = string_of_buffer b :: ls1 /\ reads file1 ls1 EmptyString.
Proof.
  intros E R. inversion R as [f Ef El|f b' f1 ls1 f2 E' R' Ef]; subst.
  - discriminate.
  - rewrite E in E'. injection E' as <- <-. now exists ls1.
Qed.

(** The lines a stream yields are determined by the stream. *)
Lemma reads_split (f f' : FILE) (xs ys : list string) :
  reads f xs f' -> reads f ys EmptyString ->
  exists zs, ys = (xs ++ zs)%list /\ reads f' zs EmptyString.
Proof.
  intros R. revert ys. induction R as [|f b f1 xs f2 E R IH]; intros ys H.
  - now exists ys.
  - destruct (reads_first _ _ _ _ E H) as (ys1 & -> & H1).
    destruct (IH _ H1) as (zs & -> & Hz). now exists zs.
Qed.

Lemma read_multiline_loop_reads (fuel : nat) (file : FILE) (acc res : string)
      (file' : FILE) :
  read_multiline_loop fuel file acc = Ok (res, file') ->
  exists ls, reads file ls file'.
Proof.
  revert file acc; induction fuel as [|fuel IH]; intros file acc H;
    [discriminate |].
  simpl in H. destruct (fgets buffer_size file) as [[b f1]|] eqn:E.
  - destruct (find (string_of_buffer b) marker).
    + injection H as <- <-. eexists. apply reads_one. exact E.
    + destruct (IH _ _ H) as [ls R]. eexists. econstructor; eassumption.
  - injection H as <- <-. exists []. constructor.
Qed.

Lemma read_multiline_reads (file : FILE) (res : string) (file' : FILE) :
  read_multiline file = Ok (res, file') -> exists ls, reads file ls file'.
Proof.
  rewrite read_multiline_chomp.
  destruct (read_multiline_loop _ file EmptyString) as [[r f]| |] eqn:E;
    try discriminate.
  intros H. injection H as <- <-. eapply read_multiline_loop_reads. exact E.
Qed.

(** [parse_line] moves the stream by whole lines. *)
Lemma parse_line_reads (line : string) (m m' : ModelFile) (file file' : FILE) :
  parse_line line m file = Ok (m', file') -> exists ls, reads file ls file'.
Proof.
  intros H.
  destruct (line_shape_cases line) as [v ->|rest ->|v ->|v ->|v ->|v ->|rest ->|].
  - rewrite parse_line_from in H. injection H as <- <-. exists []. constructor.
  - rewrite parse_line_parameter in H.
    destruct (find_char rest " " 0); injection H as <- <-;
      exists []; constructor.
  - rewrite parse_line_template in H. injection H as <- <-.
    exists []. constructor.
  - rewrite parse_line_system in H. destruct (find v marker).
    + destruct (read_multiline file) as [[r f]| |] eqn:E; try discriminate.
      injection H as <- <-. eapply read_multiline_reads. exact E.
    + injection H as <- <-. exists []. constructor.
  - rewrite parse_line_adapter in H. injection H as <- <-.
    exists []. constructor.
  - rewrite parse_line_license in H. destruct (find v marker).
    + destruct (read_multiline file) as [[r f]| |] eqn:E; try discriminate.
      injection H as <- <-. eapply read_multiline_reads. exact E.
    + injection H as <- <-. exists []. constructor.
  - rewrite parse_line_message in H.
    destruct (find_char rest " " 0); injection H as <- <-;
      exists []; constructor.
  - rewrite parse_line_other in H by assumption. injection H as <- <-.
    exists []. constructor.
Qed.

(** A property of the model that only lines with the prefix [kw] can
    break still holds at the end when no line of the file, once trimmed,
    has that prefix. *)
Lemma untouched (kw : string) (Q : ModelFile -> Prop) :
  (forall line m file m' file',
      prefix kw line = false ->
      parse_line line m file = Ok (m', file') -> Q m -> Q m') ->
  forall text ls m,
    reads text ls EmptyString ->
    Forall (fun l => prefix kw (rtrim l) = false) ls ->
    Q m ->
    exists doc, parse_stream text m = Ok doc /\ Q doc.
Proof.
  intros Hframe text ls m R Hls HQ.
  destruct (parse_stream_invariant
              (fun f m0 => Q m0
                 /\ exists ls0, reads f ls0 EmptyString
                      /\ Forall (fun l => prefix kw (rtrim l) = false) ls0))
    with (file := text) (m := m) as (doc & Rn & HQd & _).
  - intros f m0 b f1 (Hq & ls0 & R0 & F0) E _.
    split; [exact Hq |].
    destruct (reads_first _ _ _ _ E R0) as (ls1 & -> & R1).
    exists ls1. split; [exact R1 | now inversion F0].
  - intros f m0 b f1 m' f2 (Hq & ls0 & R0 & F0) E _ PL.
    destruct (reads_first _ _ _ _ E R0) as (ls1 & -> & R1).
    inversion F0 as [|x xs Hx Hxs]; subst.
    split; [eapply Hframe; eassumption |].
    destruct (parse_line_reads _ _ _ _ _ PL) as [lc Rc].
    destruct (reads_split _ _ _ _ Rc R1) as (zs & -> & Rz).
    exists zs. split; [exact Rz |].
    now apply Forall_app in Hxs as [_ Hz].
  - split; [exact HQ |]. now exists ls.
  - now exists doc.
Qed.

(** The scalar fields change only on a line with their keyword. *)
Lemma parse_line_scalars (line : string) (m m' : ModelFile) (file file' : FILE) :
  parse_line line m file = Ok (m', file') ->
  (prefix "FROM " line = false -> from m' = from m)
  /\ (prefix "TEMPLATE " line = false -> template_str m' = template_str m)
  /\ (prefix "SYSTEM " line = false -> system m' = system m)
  /\ (prefix "ADAPTER " line = false -> adapter m' = adapter m)
  /\ (prefix "LICENSE " line = false -> license m' = license m).
Proof.
  intros H.
  destruct (line_shape_cases line) as [v ->|rest ->|v ->|v ->|v ->|v ->|rest ->|].
  - rewrite parse_line_from in H. injection H as <- <-.
    rewrite prefix_app. repeat split; intros; try reflexivity; discriminate.
  - rewrite parse_line_parameter in H.
    destruct (find_char rest " " 0); injection H as <- <-;
      repeat split; intros; reflexivity.
  - rewrite parse_line_template in H. injection H as <- <-.
    rewrite prefix_app. repeat split; intros; try reflexivity; discriminate.
  - rewrite parse_line_system in H. rewrite prefix_app.
    destruct (find v marker).
    + destruct (read_multiline file) as [[r f]| |]; try discriminate.
      injection H as <- <-.
      repeat split; intros; try reflexivity; discriminate.
    + injection H as <- <-.
      repeat split; intros; try reflexivity; discriminate.
  - rewrite parse_line_adapter in H. injection H as <- <-.
    rewrite prefix_app. repeat split; intros; try reflexivity; discriminate.
  - rewrite parse_line_license in H. rewrite prefix_app.
    destruct (find v marker).
    + destruct (read_multiline file) as [[r f]| |]; try discriminate.
      injection H as <- <-.
      repeat split; intros; try reflexivity; discriminate.
    + injection H as <- <-.
      repeat split; intros; try reflexivity; discriminate.
  - rewrite parse_line_message in H.
    destruct (find_char rest " " 0); injection H as <- <-;
      repeat split; intros; reflexivity.
  - rewrite parse_line_other in H by assumption. injection H as <- <-.
    repeat split; intros; reflexivity.
Qed.

End Defaults.

Section SkippedLines.

Lemma all_in_app (chars a b : string) :
  all_in chars (a ++ b) = all_in chars a && all_in chars b.
Proof.
  induction a as [|c a IH]; simpl; [reflexivity |].
  now rewrite IH, andb_assoc.
Qed.

Lemma skipped_rtrim (raw : string) :
  skipped (rtrim raw) = blank_or_comment raw.
Proof.
  unfold blank_or_comment.
  destruct (split_at_last_kept trim_chars raw) as [H | (a & c & w & -> & Hc & Hw)].
  - now rewrite (rtrim_blank raw H), H.
  - rewrite (rtrim_kept a w c Hc Hw), all_in_app.
    change (all_in trim_chars (String c w))
      with (mem c trim_chars && all_in trim_chars w).
    rewrite Hc, andb_false_l, andb_false_r, orb_false_l.
    unfold skipped. now destruct a.
Qed.

Lemma blank_or_comment_newline (l : string) :
  blank_or_comment (l ++ String NL EmptyString) = blank_or_comment l.
Proof. now rewrite <- !skipped_rtrim, rtrim_newline. Qed.

(** The main loop passes over a blank line and over a comment line. *)
Lemma parse_stream_skip (raw : string) (file file1 : FILE) (m : ModelFile) :
  reads file [raw] file1 -> blank_or_comment raw = true ->
  parse_stream file m = parse_stream file1 m.
Proof.
  intros R H. rewrite (parse_stream_step raw file file1 m R).
  now rewrite skipped_rtrim, H.
Qed.

(** What a line without continuation does to the model does not depend
    on the stream. *)
Lemma parse_line_plain (line : string) (m m' : ModelFile) (f1 f1' f2 : FILE) :
  opens_continuation line = false ->
  parse_line line m f1 = Ok (m', f1') ->
  parse_line line m f2 = Ok (m', f2).
Proof.
  intros Hc H.
  destruct (line_shape_cases line) as [v ->|rest ->|v ->|v ->|v ->|v ->|rest ->|].
  - rewrite parse_line_from in *. now injection H as <- <-.
  - rewrite parse_line_parameter in *.
    destruct (find_char rest " " 0); now injection H as <- <-.
  - rewrite parse_line_template in *. now injection H as <- <-.
  - rewrite parse_line_system in *. rewrite opens_continuation_system in Hc.
    unfold has_marker in Hc. destruct (find v marker); [discriminate |].
    now injection H as <- <-.
  - rewrite parse_line_adapter in *. now injection H as <- <-.
  - rewrite parse_line_license in *. rewrite opens_continuation_license in Hc.
    unfold has_marker in Hc. destruct (find v marker); [discriminate |].
    now injection H as <- <-.
  - rewrite parse_line_message in *.
    destruct (find_char rest " " 0); now injection H as <- <-.
  - rewrite parse_line_other in * by assumption. now injection H as <- <-.
Qed.

(** In a text without continuation the blank and comment lines can be
    taken out. *)
Lemma parse_stream_filter (ls : list string) :
  Forall short_line ls ->
  Forall (fun l => opens_continuation (rtrim l) = false) ls ->
  forall m,
    parse_stream (unlines ls) m
    = parse_stream
        (unlines (filter (fun l => negb (blank_or_comment l)) ls)) m.
Proof.
  induction 1 as [|l ls Hl _ IH]; intros Hc m; [reflexivity |].
  inversion Hc as [|l' ls' Hcl Hcs]; subst. simpl.
  pose proof (reads_line l (unlines ls) Hl) as R.
  destruct (blank_or_comment l) eqn:B; simpl.
  - rewrite (parse_stream_skip _ _ _ m R); [now apply IH |].
    now rewrite blank_or_comment_newline.
  - rewrite (parse_stream_step _ _ _ m R).
    rewrite (parse_stream_step _ _ _ m
               (reads_line l (unlines (filter _ ls)) Hl)).
    rewrite rtrim_newline, skipped_rtrim, B.
    destruct (parse_line_ok (rtrim l) m (unlines ls)) as (m' & f & PL & _).
    pose proof (parse_line_stream_after _ _ _ _ _ PL) as Ef.
    rewrite stream_after_plain in Ef by exact Hcl. subst f.
    rewrite PL, (parse_line_plain _ _ _ _ _ _ Hcl PL). cbn [bind].
    now apply IH.
Qed.

End SkippedLines.

(** ** [read_multiline] on any stream *)

Section ReadMultiline.

Lemma read_multiline_loop_spec (fuel : nat) (file : FILE) (acc : string) :
  String.length file < fuel ->
  exists ls file',
    read_multiline_loop fuel file acc = Ok (acc ++ join ls, file')
    /\ reads file ls file'
    /\ ((file' = EmptyString /\ Forall (fun l => has_marker l = false) ls)
        \/ exists body closing,
             ls = (body ++ [closing])%list
             /\ Forall (fun l => has_marker l = false) body
             /\ has_marker closing = true).
Proof.
  revert file acc; induction fuel as [|fuel IH]; intros file acc L; [lia |].
  simpl. destruct (fgets buffer_size file) as [[b f1]|] eqn:E.
  - destruct (find (string_of_buffer b) marker) as [p|] eqn:F.
    + exists [string_of_buffer b], f1. simpl. rewrite app_empty_r.
      split; [reflexivity |]. split; [now apply reads_one |].
      right. exists [], (string_of_buffer b). unfold has_marker. rewrite F.
      now repeat split.
    + pose proof (fgets_shorter _ _ _ E) as L1.
      destruct (IH f1 (acc ++ string_of_buffer b) ltac:(lia))
        as (ls & f' & R & Rd & C).
      exists (string_of_buffer b :: ls), f'. simpl.
      rewrite <- app_assoc_s. split; [exact R |].
      split; [econstructor; eassumption |].
      assert (N : has_marker (string_of_buffer b) = false)
        by (unfold has_marker; now rewrite F).
      destruct C as [[-> Hn] | (body & closing & -> & Hb & Hc)].
      * left. split; [reflexivity | now constructor].
      * right. exists (string_of_buffer b :: body), closing.
        split; [reflexivity |]. split; [now constructor | exact Hc].
  - apply fgets_eof in E as ->. exists [], EmptyString. simpl.
    rewrite app_empty_r. split; [reflexivity |].
    split; [constructor |]. left. now split.
Qed.

(** When the stream yields a line, [read_multiline] takes it. *)
Lemma read_multiline_next (file : FILE) (raw : string) (file1 : FILE) :
  reads file [raw] file1 ->
  exists ls file',
    read_multiline file = Ok (chomp (raw ++ join ls), file')
    /\ reads file (raw :: ls) file'.
Proof.
  intros Hnext.
  destruct (read_multiline_loop_spec (S (String.length file)) file EmptyString)
    as (ls & f' & R0 & Rd & C); [lia |].
  assert (R : read_multiline file = Ok (chomp (join ls), f'))
    by (now rewrite read_multiline_chomp, R0).
  clear R0.
  inversion Hnext as [|f b f1 l0 f2 E Rn Ef]; subst.
  inversion Rn; subst.
  inversion Rd as [f Ef El|f b' f1' ls1 f2 E' R' Ef]; subst.
  - exfalso. destruct C as [[-> _] | (body & closing & Hl & _)].
    + discriminate.
    + now destruct body.
  - rewrite E in E'. injection E' as <- <-.
    exists ls1, f'. now split.
Qed.

End ReadMultiline.

(** ** The read buffers as memory *)

Section Memory.

Lemma string_of_buffer_terminated (chunk t : string) :
  string_of_buffer (chunk ++ String NUL t) = string_of_buffer chunk.
Proof.
  induction chunk as [|c chunk IH]; simpl; [reflexivity |].
  destruct (Ascii.eqb c NUL); [reflexivity | now rewrite IH].
Qed.

(** What is built from the buffer after [fgets] does not depend on what
    the buffer held before. *)
Lemma fgets_into_line (buffer : string) (file : FILE) :
  option_map (fun r => (string_of_buffer (fst r), snd r))
    (fgets_into buffer buffer_size file)
  = option_map (fun r => (string_of_buffer (fst r), snd r))
      (fgets buffer_size file).
Proof.
  unfold fgets_into. destruct (fgets buffer_size file) as [[chunk f]|];
    [| reflexivity].
  simpl. now rewrite string_of_buffer_terminated.
Qed.

Lemma read_multiline_loop_mem_eq (fuel : nat) (buffer : string) (file : FILE)
      (result : string) :
  read_multiline_loop_mem fuel buffer file result
  = read_multiline_loop fuel file result.
Proof.
  revert buffer file result; induction fuel as [|fuel IH];
    intros buffer file result; [reflexivity |].
  simpl. unfold fgets_into.
  destruct (fgets buffer_size file) as [[chunk f]|]; [| reflexivity].
  rewrite string_of_buffer_terminated.
  destruct (find (string_of_buffer chunk) marker); [reflexivity | apply IH].
Qed.

Lemma read_multiline_mem_eq (garbage : string) (file : FILE) :
  read_multiline_mem garbage file = read_multiline file.
Proof.
  unfold read_multiline_mem, read_multiline.
  now rewrite read_multiline_loop_mem_eq.
Qed.

Lemma parse_line_mem_eq (garbage line : string) (m : ModelFile) (file : FILE) :
  parse_line_mem garbage line m file = parse_line line m file.
Proof.
  unfold parse_line_mem, parse_line.
  now rewrite !read_multiline_mem_eq.
Qed.

Lemma parse_modelfile_loop_mem_eq (stack : FILE -> string) (fuel : nat)
      (buffer : string) (file : FILE) (m : ModelFile) :
  parse_modelfile_loop_mem stack fuel buffer file m
  = parse_modelfile_loop fuel file m.
Proof.
  revert buffer file m; induction fuel as [|fuel IH]; intros buffer file m;
    [reflexivity |].
  simpl. unfold fgets_into.
  destruct (fgets buffer_size file) as [[chunk f]|]; [| reflexivity].
  rewrite string_of_buffer_terminated.
  destruct (erase (string_of_buffer chunk) _) as [line| |];
    try reflexivity.
  cbn [bind]. destruct (empty line || _); [apply IH |].
  rewrite parse_line_mem_eq.
  destruct (parse_line line m f) as [[m' f']| |]; try reflexivity.
  cbn [bind]. apply IH.
Qed.

Lemma parse_modelfile_mem_eq (garbage : string) (stack : FILE -> string)
      (fs : filesystem) (filename : string) :
  parse_modelfile_mem garbage stack fs filename = parse_modelfile fs filename.
Proof.
  unfold parse_modelfile_mem, parse_modelfile.
  destruct (fopen fs filename); [| reflexivity].
  apply parse_modelfile_loop_mem_eq.
Qed.

End Memory.

(** * The claims *)



(** C2.  A PARAMETER line is split at the first space at or after
    offset 10: when the text after the keyword is a key without a space,
    a space and a value, the search finds that space, and the model that
    comes back has the pair of key and value as the new last element of
    [parameters] and every other field as before; when the text after
    the keyword has no space, the model comes back as it was and nothing
    is thrown.  The two lines of the examples give, through
    [parse_modelfile], the document with that one pair and the empty
    document. *)
Theorem parameter_line
  (key value rest : string) (m : ModelFile) (file : FILE)
  (Hkey : lacks " " key) (Hrest : lacks " " rest) :
  find_char ("PARAMETER " ++ key ++ String " " value) " " 10
  = Some (10 + String.length key)
  /\ parse_line ("PARAMETER " ++ key ++ String " " value) m file
     = Ok (mkModelFile (from m) (parameters m ++ [(key, value)])
             (template_str m) (system m) (adapter m) (license m) (messages m),
           file)
  /\ find_char ("PARAMETER " ++ rest) " " 10 = None
  /\ parse_line ("PARAMETER " ++ rest) m file = Ok (m, file)
  /\ parse_text (unlines ["PARAMETER temperature 0.7"])
     = Ok (mkModelFile EmptyString [("temperature", "0.7")] EmptyString
             EmptyString EmptyString EmptyString [])
  /\ parse_text (unlines ["PARAMETER onlykey"])
     = Ok (mkModelFile EmptyString [] EmptyString EmptyString EmptyString
             EmptyString []).
Proof.
  split.
  { rewrite (find_char_skip "PARAMETER " _ " " 0
             : find_char ("PARAMETER " ++ _) " " 10 = _).
    now rewrite (find_char_hit _ _ _ Hkey). }
  split; [exact (parse_line_parameter_pair m file key value Hkey) |].
  split.
  { rewrite (find_char_skip "PARAMETER " _ " " 0
             : find_char ("PARAMETER " ++ _) " " 10 = _).
    unfold lacks in Hrest. now rewrite Hrest. }
  split.
  { rewrite parse_line_parameter. unfold lacks in Hrest. now rewrite Hrest. }
  split; vm_compute; reflexivity.
Qed.

Lemma parameter_line_witness :
  parse_line "PARAMETER temperature 0.7"
    (mkModelFile "m" [("seed", "1")] "t" "s" "a" "l" [("user", "hi")]) "FROM x"
  = Ok (mkModelFile "m" [("seed", "1"); ("temperature", "0.7")] "t" "s" "a" "l"
          [("user", "hi")], "FROM x")
  /\ parse_line "PARAMETER onlykey" empty_model "FROM x"
     = Ok (empty_model, "FROM x").
Proof.
  pose proof (parameter_line "temperature" "0.7" "onlykey"
                (mkModelFile "m" [("seed", "1")] "t" "s" "a" "l" [("user", "hi")])
                "FROM x" eq_refl eq_refl) as (_ & H1 & _ & _).
  pose proof (parameter_line "temperature" "0.7" "onlykey" empty_model "FROM x"
                eq_refl eq_refl) as (_ & _ & _ & H2 & _).
  exact (conj H1 H2).
Defined.

(** C3.  On a line made of FROM, TEMPLATE or ADAPTER, one space and a
    value, [parse_line] gives back the model with that field equal to
    exactly the text after the space, whatever the value is, every other
    field as before, and the stream untouched.  When such a line stands
    in a file (the value without newline or NUL, not ending in a trimmed
    character, the line within the buffer) the main loop hands it over
    untouched, so the field of the document is the value. *)
Theorem single_line_directive (v : string) (m : ModelFile) (file : FILE) :
  parse_line ("FROM " ++ v) m file
  = Ok (mkModelFile v (parameters m) (template_str m) (system m) (adapter m)
          (license m) (messages m), file)
  /\ parse_line ("TEMPLATE " ++ v) m file
     = Ok (mkModelFile (from m) (parameters m) v (system m) (adapter m)
             (license m) (messages m), file)
  /\ parse_line ("ADAPTER " ++ v) m file
     = Ok (mkModelFile (from m) (parameters m) (template_str m) (system m) v
             (license m) (messages m), file)
  /\ (lacks NL v -> lacks NUL v -> String.length v + 10 < buffer_size ->
      ends_clean v = true ->
      parse_stream (("FROM " ++ v) ++ String NL file) m
      = parse_stream file
          (mkModelFile v (parameters m) (template_str m) (system m) (adapter m)
             (license m) (messages m))
      /\ parse_stream (("TEMPLATE " ++ v) ++ String NL file) m
         = parse_stream file
             (mkModelFile (from m) (parameters m) v (system m) (adapter m)
                (license m) (messages m))
      /\ parse_stream (("ADAPTER " ++ v) ++ String NL file) m
         = parse_stream file
             (mkModelFile (from m) (parameters m) (template_str m) (system m) v
                (license m) (messages m))
      /\ parse_text ("FROM " ++ v ++ String NL EmptyString)
         = Ok (mkModelFile v [] EmptyString EmptyString EmptyString
                 EmptyString [])
      /\ parse_text ("TEMPLATE " ++ v ++ String NL EmptyString)
         = Ok (mkModelFile EmptyString [] v EmptyString EmptyString
                 EmptyString [])
      /\ parse_text ("ADAPTER " ++ v ++ String NL EmptyString)
         = Ok (mkModelFile EmptyString [] EmptyString EmptyString v
                 EmptyString [])).
Proof.
  split; [exact (parse_line_from m file v) |].
  split; [exact (parse_line_template m file v) |].
  split; [exact (parse_line_adapter m file v) |].
  intros Hnl Hnul Hlen Hclean.
  assert (S : forall kw, short_line kw -> String.length kw < 10 ->
              forall f m0,
                parse_stream ((kw ++ v) ++ String NL f) m0
                = if skipped (kw ++ v) then parse_stream f m0
                  else '(m', file') <- parse_line (kw ++ v) m0 f ;;
                       parse_stream file' m').
  { intros kw H1 H2 f m0. now apply parse_stream_keyword. }
  assert (K1 : short_line "FROM ")
    by (repeat split; try reflexivity; unfold buffer_size; simpl; lia).
  assert (K2 : short_line "TEMPLATE ")
    by (repeat split; try reflexivity; unfold buffer_size; simpl; lia).
  assert (K3 : short_line "ADAPTER ")
    by (repeat split; try reflexivity; unfold buffer_size; simpl; lia).
  split; [exact (S "FROM " K1 ltac:(simpl; lia) file m) |].
  split; [exact (S "TEMPLATE " K2 ltac:(simpl; lia) file m) |].
  split; [exact (S "ADAPTER " K3 ltac:(simpl; lia) file m) |].
  split; [exact (S "FROM " K1 ltac:(simpl; lia) EmptyString empty_model) |].
  split; [exact (S "TEMPLATE " K2 ltac:(simpl; lia) EmptyString empty_model) |].
  exact (S "ADAPTER " K3 ltac:(simpl; lia) EmptyString empty_model).
Qed.

Lemma single_line_directive_witness :
  parse_line "FROM llama3:8b"
    (mkModelFile "old" [("seed", "1")] "t" "s" "a" "l" []) EmptyString
  = Ok (mkModelFile "llama3:8b" [("seed", "1")] "t" "s" "a" "l" [], EmptyString)
  /\ parse_text ("ADAPTER ./lora.bin" ++ String NL EmptyString)
     = Ok (mkModelFile EmptyString [] EmptyString EmptyString "./lora.bin"
             EmptyString []).
Proof.
  split.
  - exact (proj1 (single_line_directive "llama3:8b"
                    (mkModelFile "old" [("seed", "1")] "t" "s" "a" "l" [])
                    EmptyString)).
  - destruct (single_line_directive "./lora.bin" empty_model EmptyString)
      as (_ & _ & _ & H).
    destruct (H eq_refl eq_refl ltac:(unfold buffer_size; simpl; lia) eq_refl)
      as (_ & _ & _ & _ & _ & H').
    exact H'.
Defined.

(** C4, as amended.  Whatever the file, [parameters] is the sequence of
    the pairs held by the PARAMETER lines that the main loop hands over,
    one after the other in the order of the lines, and [messages] that
    of the MESSAGE lines: a line with a key and a value adds its pair
    whatever the sequence already holds, so of two lines with the same
    key both pairs are there, the earlier line first, and nothing is
    replaced.  A SYSTEM or LICENSE line whose value holds the marker
    takes the next line of the stream for itself and adds no pair.  For
    a text whose lines fit the buffer and open no continuation the
    handled lines are the lines of the text.  The example has the same
    key three times and the same role twice. *)
Theorem repeated_lines_kept
  (file : FILE) (hs : list string) (m : ModelFile)
  (Hhandled : handled file hs) :
  (exists doc,
      parse_stream file m = Ok doc
      /\ parameters doc
         = (parameters m ++ flat_map (pair_after "PARAMETER ") hs)%list
      /\ messages doc
         = (messages m ++ flat_map (pair_after "MESSAGE ") hs)%list)
  /\ (forall key v1 v2 a b c,
         lacks " " key ->
         hs = (a ++ ("PARAMETER " ++ key ++ String " " v1)%string
                 :: b ++ ("PARAMETER " ++ key ++ String " " v2)%string :: c)%list ->
         exists doc x y z,
           parse_stream file m = Ok doc
           /\ parameters doc = (x ++ (key, v1) :: y ++ (key, v2) :: z)%list)
  /\ (forall role v1 v2 a b c,
         lacks " " role ->
         hs = (a ++ ("MESSAGE " ++ role ++ String " " v1)%string
                 :: b ++ ("MESSAGE " ++ role ++ String " " v2)%string :: c)%list ->
         exists doc x y z,
           parse_stream file m = Ok doc
           /\ messages doc = (x ++ (role, v1) :: y ++ (role, v2) :: z)%list)
  /\ (forall key value,
         lacks " " key ->
         pair_after "PARAMETER " ("PARAMETER " ++ key ++ String " " value)
         = [(key, value)])
  /\ (forall role content,
         lacks " " role ->
         pair_after "MESSAGE " ("MESSAGE " ++ role ++ String " " content)
         = [(role, content)])
  /\ (forall v m0 f raw f1,
         has_marker v = true -> reads f [raw] f1 ->
         exists ls f' m1 m2,
           reads f (raw :: ls) f'
           /\ parse_line ("SYSTEM " ++ v) m0 f = Ok (m1, f')
           /\ parse_line ("LICENSE " ++ v) m0 f = Ok (m2, f')
           /\ parameters m1 = parameters m0 /\ messages m1 = messages m0
           /\ parameters m2 = parameters m0 /\ messages m2 = messages m0)
  /\ (forall ls,
         Forall short_line ls ->
         Forall (fun l => opens_continuation (rtrim l) = false) ls ->
         handled (unlines ls)
           (filter (fun l => negb (skipped l)) (map rtrim ls))
         /\ exists doc,
              parse_text (unlines ls) = Ok doc
              /\ parameters doc
                 = flat_map (fun l => pair_after "PARAMETER " (rtrim l)) ls
              /\ messages doc
                 = flat_map (fun l => pair_after "MESSAGE " (rtrim l)) ls)
  /\ parse_text (unlines ["PARAMETER stop a"; "MESSAGE user hi";
                          "PARAMETER stop a"; "PARAMETER stop b";
                          "MESSAGE user hi"])
     = Ok (mkModelFile EmptyString
             [("stop", "a"); ("stop", "a"); ("stop", "b")]
             EmptyString EmptyString EmptyString EmptyString
             [("user", "hi"); ("user", "hi")]).
Proof.
  pose proof (parse_stream_handled file hs Hhandled m) as (doc0 & R0 & P0 & M0).
  split; [now exists doc0 |].
  split.
  { intros key v1 v2 a b c Hk E.
    destruct (flat_map_two "PARAMETER " key v1 v2 (parameters m) a b c Hk)
      as (x & y & z & F).
    exists doc0, x, y, z. split; [exact R0 |]. now rewrite P0, E, F. }
  split.
  { intros role v1 v2 a b c Hr E.
    destruct (flat_map_two "MESSAGE " role v1 v2 (messages m) a b c Hr)
      as (x & y & z & F).
    exists doc0, x, y, z. split; [exact R0 |]. now rewrite M0, E, F. }
  split; [intros key value Hk; now apply pair_after_pair |].
  split; [intros role content Hr; now apply pair_after_pair |].
  split.
  { intros v m0 f raw f1 Hv Hn.
    destruct (read_multiline_next f raw f1 Hn) as (ls & f' & R & Rd).
    destruct (has_marker_find _ Hv) as [p F].
    exists ls, f'. eexists. eexists. split; [exact Rd |].
    rewrite parse_line_system, parse_line_license, F, R. cbn [bind].
    repeat split. }
  split; [| vm_compute; reflexivity].
  intros ls Hs Hc. split; [now apply handled_text |].
  destruct (parse_stream_handled _ _ (handled_text ls Hs Hc) empty_model)
    as (doc & R & Hp & Hm).
  exists doc. split; [exact R |].
  rewrite Hp, Hm. simpl.
  rewrite !flat_map_filter_handled by (discriminate || (simpl; congruence)).
  now rewrite !flat_map_concat_map, !map_map.
Qed.

Lemma repeated_lines_kept_witness :
  let l1 := "PARAMETER stop a" ++ String NL EmptyString in
  let l2 := "# note" ++ String NL EmptyString in
  let l3 := "PARAMETER stop b" in
  exists doc,
    parse_stream (l1 ++ l2 ++ l3) empty_model = Ok doc
    /\ parameters doc = [("stop", "a"); ("stop", "b")]
    /\ messages doc = [].
Proof.
  intros l1 l2 l3.
  assert (H : handled (l1 ++ l2 ++ l3) ["PARAMETER stop a"; "PARAMETER stop b"]).
  { apply (handled_line (l1 ++ l2 ++ l3) l1 (l2 ++ l3));
      [exact (reads_one (l1 ++ l2 ++ l3) l1 (l2 ++ l3) eq_refl)
      | reflexivity |].
    apply (handled_skip (l2 ++ l3) l2 l3);
      [exact (reads_one (l2 ++ l3) l2 l3 eq_refl) | reflexivity |].
    apply (handled_line l3 l3 EmptyString);
      [exact (reads_one l3 l3 EmptyString eq_refl) | reflexivity |].
    exact handled_eof. }
  exact (proj1 (repeated_lines_kept (l1 ++ l2 ++ l3)
                  ["PARAMETER stop a"; "PARAMETER stop b"] empty_model H)).
Defined.

(** C4, as it is written, fails: after a SYSTEM value that holds the
    marker the lines of the file are read as text of that value; of
    three PARAMETER lines with the key [stop] the document keeps the
    one before the SYSTEM line and neither of the two after it. *)
Lemma continuation_swallows_parameter_lines :
  let ls := ["PARAMETER stop a"; "SYSTEM " ++ marker ++ "Be brief." ++ marker;
             "PARAMETER stop b"; "PARAMETER stop c"] in
  Forall short_line ls
  /\ parse_text (unlines ls)
     = Ok (mkModelFile EmptyString [("stop", "a")] EmptyString
             (marker ++ "Be brief." ++ marker ++ String NL
                ("PARAMETER stop b" ++ String NL "PARAMETER stop c"))
             EmptyString EmptyString [])
  /\ ~ (exists doc,
          parse_text (unlines ls) = Ok doc
          /\ In ("stop", "b") (parameters doc)
          /\ In ("stop", "c") (parameters doc)).
Proof.
  intros ls.
  assert (E : parse_text (unlines ls)
              = Ok (mkModelFile EmptyString [("stop", "a")] EmptyString
                      (marker ++ "Be brief." ++ marker ++ String NL
                         ("PARAMETER stop b" ++ String NL "PARAMETER stop c"))
                      EmptyString EmptyString []))
    by (vm_compute; reflexivity).
  split.
  { repeat constructor; unfold buffer_size; simpl; lia. }
  split; [exact E |].
  intros (doc & R & Hb & _). rewrite E in R. injection R as <-.
  simpl in Hb. destruct Hb as [Hb | []]. discriminate.
Qed.

(** C5.  When the file cannot be opened, [parse_modelfile] returns the
    default-constructed document, every field empty, and throws
    nothing; a file that opens and holds no text gives the same
    document. *)
Theorem source_unavailable
  (fs : filesystem) (filename : string)
  (Hfail : fopen fs filename = None) :
  parse_modelfile fs filename = Ok empty_model
  /\ (forall fs', fopen fs' filename = Some EmptyString ->
                  parse_modelfile fs' filename = parse_modelfile fs filename)
  /\ from empty_model = EmptyString
  /\ parameters empty_model = []
  /\ template_str empty_model = EmptyString
  /\ system empty_model = EmptyString
  /\ adapter empty_model = EmptyString
  /\ license empty_model = EmptyString
  /\ messages empty_model = [].
Proof.
  assert (E : parse_modelfile fs filename = Ok empty_model)
    by (unfold parse_modelfile; now rewrite Hfail).
  repeat split; try exact E.
  intros fs' H. rewrite E. unfold parse_modelfile. now rewrite H.
Qed.

Lemma source_unavailable_witness :
  parse_modelfile (fun _ => None) "Modelfile" = Ok empty_model
  /\ parse_modelfile (single_file "Modelfile" EmptyString) "Modelfile"
     = parse_modelfile (fun _ => None) "Modelfile".
Proof.
  pose proof (source_unavailable (fun _ => None) "Modelfile" eq_refl)
    as (H1 & H2 & _).
  exact (conj H1 (H2 (single_file "Modelfile" EmptyString) eq_refl)).
Defined.



(** C7, as amended.  For every file: a scalar field is empty, and a
    sequence is empty, when no line that the stream yields starts, once
    trimmed, with the keyword of that field and a space.  A blank line
    and a line whose first character is [#] are passed over when the main
    loop reads them, whatever the model holds and whatever follows.
    From a text whose lines fit the buffer and in which no SYSTEM or
    LICENSE value opens a continuation, they can be taken out without
    changing the document.  A line that a continuation reads is not
    filtered: whenever a SYSTEM or LICENSE value holds the marker, the
    next line that the stream yields, blank or comment or other, is
    appended to the value. *)
Theorem defaults_and_skipped_lines
  (text : string) (ls : list string)
  (Hreads : reads text ls EmptyString) :
  (exists doc,
      parse_text text = Ok doc
      /\ (Forall (fun l => prefix "FROM " (rtrim l) = false) ls ->
          from doc = EmptyString)
      /\ (Forall (fun l => prefix "PARAMETER " (rtrim l) = false) ls ->
          parameters doc = [])
      /\ (Forall (fun l => prefix "TEMPLATE " (rtrim l) = false) ls ->
          template_str doc = EmptyString)
      /\ (Forall (fun l => prefix "SYSTEM " (rtrim l) = false) ls ->
          system doc = EmptyString)
      /\ (Forall (fun l => prefix "ADAPTER " (rtrim l) = false) ls ->
          adapter doc = EmptyString)
      /\ (Forall (fun l => prefix "LICENSE " (rtrim l) = false) ls ->
          license doc = EmptyString)
      /\ (Forall (fun l => prefix "MESSAGE " (rtrim l) = false) ls ->
          messages doc = []))
  /\ (forall raw file file1 m,
         reads file [raw] file1 -> blank_or_comment raw = true ->
         parse_stream file m = parse_stream file1 m)
  /\ (forall ls',
         Forall short_line ls' ->
         Forall (fun l => opens_continuation (rtrim l) = false) ls' ->
         parse_text (unlines ls')
         = parse_text
             (unlines (filter (fun l => negb (blank_or_comment l)) ls')))
  /\ (forall v m raw file file1,
         has_marker v = true -> reads file [raw] file1 ->
         exists more file',
           reads file (raw :: more) file'
           /\ parse_line ("SYSTEM " ++ v) m file
              = Ok (mkModelFile (from m) (parameters m) (template_str m)
                      (v ++ String NL (chomp (raw ++ join more)))
                      (adapter m) (license m) (messages m), file')
           /\ parse_line ("LICENSE " ++ v) m file
              = Ok (mkModelFile (from m) (parameters m) (template_str m)
                      (system m) (adapter m)
                      (v ++ String NL (chomp (raw ++ join more)))
                      (messages m), file'))
  /\ parse_text (unlines ["# this is ignored"; EmptyString])
     = Ok (mkModelFile EmptyString [] EmptyString EmptyString EmptyString
             EmptyString []).
Proof.
  split; [| split; [| split; [| split]]].
  - destruct (parse_modelfile_ok (single_file "Modelfile" text) "Modelfile")
      as [doc E].
    exists doc. split; [exact E |].
    assert (U : forall kw (Q : ModelFile -> Prop),
               (forall line m file m' file',
                   prefix kw line = false ->
                   parse_line line m file = Ok (m', file') -> Q m -> Q m') ->
               Q empty_model ->
               Forall (fun l => prefix kw (rtrim l) = false) ls -> Q doc).
    { intros kw Q Hframe H0 Hls.
      destruct (untouched kw Q Hframe text ls empty_model Hreads Hls H0)
        as (doc' & R & HQ).
      change (parse_stream text empty_model = Ok doc) in E.
      rewrite E in R. now injection R as <-. }
    repeat split.
    + apply (U "FROM " (fun m => from m = EmptyString)); [| reflexivity].
      intros line m f m' f' P PL Hq.
      destruct (parse_line_scalars _ _ _ _ _ PL) as (H & _). now rewrite H.
    + apply (U "PARAMETER " (fun m => parameters m = [])); [| reflexivity].
      intros line m f m' f' P PL Hq.
      destruct (parse_line_sequences _ _ _ _ _ PL) as (H & _).
      now rewrite H, Hq, pair_after_no_prefix.
    + apply (U "TEMPLATE " (fun m => template_str m = EmptyString));
        [| reflexivity].
      intros line m f m' f' P PL Hq.
      destruct (parse_line_scalars _ _ _ _ _ PL) as (_ & H & _). now rewrite H.
    + apply (U "SYSTEM " (fun m => system m = EmptyString)); [| reflexivity].
      intros line m f m' f' P PL Hq.
      destruct (parse_line_scalars _ _ _ _ _ PL) as (_ & _ & H & _).
      now rewrite H.
    + apply (U "ADAPTER " (fun m => adapter m = EmptyString)); [| reflexivity].
      intros line m f m' f' P PL Hq.
      destruct (parse_line_scalars _ _ _ _ _ PL) as (_ & _ & _ & H & _).
      now rewrite H.
    + apply (U "LICENSE " (fun m => license m = EmptyString)); [| reflexivity].
      intros line m f m' f' P PL Hq.
      destruct (parse_line_scalars _ _ _ _ _ PL) as (_ & _ & _ & _ & H).
      now rewrite H.
    + apply (U "MESSAGE " (fun m => messages m = [])); [| reflexivity].
      intros line m f m' f' P PL Hq.
      destruct (parse_line_sequences _ _ _ _ _ PL) as (_ & H).
      now rewrite H, Hq, pair_after_no_prefix.
  - intros raw file file1 m R B. exact (parse_stream_skip raw file file1 m R B).
  - intros ls' Hs Hc. rewrite !parse_text_stream. now apply parse_stream_filter.
  - intros v m raw file file1 Hv Hn.
    destruct (read_multiline_next file raw file1 Hn) as (more & f' & R & Rd).
    destruct (has_marker_find _ Hv) as [p F].
    exists more, f'. split; [exact Rd |].
    rewrite parse_line_system, parse_line_license, F, R. now split.
  - vm_compute. reflexivity.
Qed.

Lemma defaults_and_skipped_lines_witness :
  let l1 := "# this is ignored" ++ String NL EmptyString in
  let l2 := String NL EmptyString in
  let l3 := "FROM llama3" in
  exists doc,
    parse_text (l1 ++ l2 ++ l3) = Ok doc
    /\ template_str doc = EmptyString
    /\ messages doc = [].
Proof.
  intros l1 l2 l3.
  assert (R : reads (l1 ++ l2 ++ l3) [l1; l2; l3] EmptyString).
  { exact (reads_cons (l1 ++ l2 ++ l3) l1 (l2 ++ l3) [l2; l3] EmptyString eq_refl
             (reads_cons (l2 ++ l3) l2 l3 [l3] EmptyString eq_refl
                (reads_cons l3 l3 EmptyString [] EmptyString eq_refl
                   (reads_nil EmptyString)))). }
  destruct (defaults_and_skipped_lines (l1 ++ l2 ++ l3) [l1; l2; l3] R)
    as ((doc & E & _ & _ & Ht & _ & _ & _ & Hm) & _).
  exists doc. split; [exact E |].
  split; [apply Ht | apply Hm]; repeat constructor.
Defined.

(** C7, as it is written, fails: a blank line and a line that starts
    with [#] between the opening and the closing marker of a SYSTEM value
    are read by the continuation and stay in [system]; without the two
    lines the field is another. *)
Lemma continuation_keeps_blank_and_comment_lines :
  let with_lines := ["SYSTEM " ++ marker ++ "a"; EmptyString; "# note";
                     "b" ++ marker] in
  let without := ["SYSTEM " ++ marker ++ "a"; "b" ++ marker] in
  Forall short_line with_lines
  /\ filter (fun l => negb (blank_or_comment l)) with_lines = without
  /\ parse_text (unlines with_lines)
     = Ok (set_system empty_model
             (marker ++ "a" ++ String NL (String NL ("# note" ++ String NL
                ("b" ++ marker)))))
  /\ parse_text (unlines without)
     = Ok (set_system empty_model (marker ++ "a" ++ String NL ("b" ++ marker)))
  /\ parse_text (unlines with_lines) <> parse_text (unlines without).
Proof.
  intros with_lines without.
  split.
  { repeat constructor; unfold buffer_size; simpl; lia. }
  split; [reflexivity |].
  split; [vm_compute; reflexivity |].
  split; [vm_compute; reflexivity |].
  vm_compute. discriminate.
Qed.

(** C8.  Two runs on the same text return the same document, field
    for field, whatever their buffers hold when they start: the two
    [char buffer[1024]], which the code does not initialise, are the
    only memory that a run can inherit from an earlier call, and what is
    built from a buffer never reaches beyond the NUL that [fgets] wrote.
    In the statement [g1], [g2] are the contents of the buffer of
    [parse_modelfile] on entry of the two runs and [s1], [s2] give the
    contents that each call of [read_multiline] finds in its buffer. *)
Theorem parse_deterministic
  (g1 g2 : string) (s1 s2 : FILE -> string)
  (fs1 fs2 : filesystem) (filename : string)
  (Hsame : fopen fs1 filename = fopen fs2 filename) :
  exists doc,
    parse_modelfile_mem g1 s1 fs1 filename = Ok doc
    /\ parse_modelfile_mem g2 s2 fs2 filename = Ok doc.
Proof.
  destruct (parse_modelfile_ok fs1 filename) as [doc E].
  exists doc. rewrite !parse_modelfile_mem_eq. split; [exact E |].
  unfold parse_modelfile in *. now rewrite <- Hsame.
Qed.

Lemma parse_deterministic_witness :
  let text := unlines ["FROM a"; "SYSTEM " ++ marker ++ "x"; "y"] in
  let left_over := "PARAMETER k v" ++ String NL (marker ++ "FROM b") in
  exists doc,
    parse_modelfile_mem EmptyString (fun _ => EmptyString)
      (single_file "Modelfile" text) "Modelfile" = Ok doc
    /\ parse_modelfile_mem left_over (fun _ => left_over)
         (fun n => if String.eqb n "Other" then Some "FROM b"
                   else single_file "Modelfile" text n) "Modelfile"
       = Ok doc.
Proof.
  intros text left_over.
  exact (parse_deterministic EmptyString left_over (fun _ => EmptyString)
           (fun _ => left_over) (single_file "Modelfile" text)
           (fun n => if String.eqb n "Other" then Some "FROM b"
                     else single_file "Modelfile" text n)
           "Modelfile" eq_refl).
Defined.

(** C9.  On every file [parse_modelfile] returns a document in which
    the value of each pair of [parameters] and of [messages] is not empty
    and does not end in a space, a tab, a carriage return or a newline.
    A PARAMETER line whose key is followed by a space and nothing else is
    trimmed to the key alone, and adds no pair. *)
Theorem appended_values_clean (fs : filesystem) (filename : string) :
  exists doc,
    parse_modelfile fs filename = Ok doc
    /\ Forall (fun kv => value_ok (snd kv)) (parameters doc)
    /\ Forall (fun kv => value_ok (snd kv)) (messages doc)
    /\ parse_text ("PARAMETER key " ++ String NL EmptyString) = Ok empty_model.
Proof.
  set (clean := fun kv : string * string => ends_clean (snd kv) = true).
  assert (W : forall l, Forall clean l -> Forall (fun kv => value_ok (snd kv)) l).
  { intros l H. eapply Forall_impl; [| exact H].
    intros kv. apply ends_clean_value_ok. }
  unfold parse_modelfile. destruct (fopen fs filename) as [file|].
  - destruct (parse_stream_invariant
                (fun _ m => Forall clean (parameters m)
                            /\ Forall clean (messages m)))
      with (file := file) (m := empty_model) as (doc & R & Hp & Hm).
    + intros f m b f1 H _ _. exact H.
    + intros f m b f1 m' f2 [Hp Hm] _ Sk PL.
      apply skipped_false_clean in Sk.
      destruct (parse_line_sequences _ _ _ _ _ PL) as [-> ->].
      split; apply Forall_app; split; try assumption;
        now apply pair_after_clean.
    + split; constructor.
    + exists doc. repeat split; auto.
  - exists empty_model. repeat split; constructor.
Qed.

(** C10.  When a second space follows the separating space of MESSAGE,
    the search from offset 8 stops at offset 8: the model that comes
    back has, as the new last element of [messages], the pair of the
    empty role and everything after that space, and every other field
    as before.  PARAMETER with a second space at offset 10 adds a pair
    with the empty key to [parameters] in the same way.  Both lines of
    the examples give such a document through [parse_modelfile]. *)
Theorem empty_role_and_key (content : string) (m : ModelFile) (file : FILE) :
  find_char ("MESSAGE  " ++ content) " " 8 = Some 8
  /\ parse_line ("MESSAGE  " ++ content) m file
     = Ok (mkModelFile (from m) (parameters m) (template_str m) (system m)
             (adapter m) (license m) (messages m ++ [(EmptyString, content)]),
           file)
  /\ find_char ("PARAMETER  " ++ content) " " 10 = Some 10
  /\ parse_line ("PARAMETER  " ++ content) m file
     = Ok (mkModelFile (from m) (parameters m ++ [(EmptyString, content)])
             (template_str m) (system m) (adapter m) (license m) (messages m),
           file)
  /\ parse_text (unlines ["MESSAGE  hello"])
     = Ok (mkModelFile EmptyString [] EmptyString EmptyString EmptyString
             EmptyString [(EmptyString, "hello")])
  /\ parse_text (unlines ["PARAMETER  0.7"])
     = Ok (mkModelFile EmptyString [(EmptyString, "0.7")] EmptyString
             EmptyString EmptyString EmptyString []).
Proof.
  split; [reflexivity |].
  split; [exact (parse_line_message_pair m file EmptyString content eq_refl) |].
  split; [reflexivity |].
  split; [exact (parse_line_parameter_pair m file EmptyString content eq_refl) |].
  split; vm_compute; reflexivity.
Qed.

(** * Further properties of the code *)

(** ** [starts_with] *)

(** X1.  [starts_with] never throws, also when the string is shorter
    than the prefix, and answers true exactly when the string is the
    prefix followed by some text. *)
Theorem starts_with_iff (str p : string) :
  (exists b, starts_with str p = Ok b)
  /\ (starts_with str p = Ok true <-> exists t, str = p ++ t)
  /\ (String.length str < String.length p -> starts_with str p = Ok false).
Proof.
  rewrite starts_with_prefix. split; [now eexists |]. split.
  - split.
    + intros H. injection H as H. now apply prefix_inv.
    + intros [t ->]. now rewrite prefix_app.
  - intros L. destruct (prefix p str) eqn:P; [| reflexivity].
    apply prefix_inv in P as [t ->]. rewrite length_app in L. lia.
Qed.

Lemma starts_with_iff_witness :
  starts_with "FROM" "FROM " = Ok false
  /\ starts_with "FROM x" "FROM " = Ok true.
Proof.
  split.
  - exact (proj2 (proj2 (starts_with_iff "FROM" "FROM ")) ltac:(simpl; lia)).
  - exact (proj2 (proj1 (proj2 (starts_with_iff "FROM x" "FROM ")))
             (ex_intro _ "x" eq_refl)).
Defined.

(** ** [parse_line] on any line *)

(** X2.  Whatever the line, the model and the stream, [parse_line]
    returns: no [substr] position is out of range.  The stream it leaves
    is the one it got less some whole lines at its front. *)
Theorem parse_line_never_throws (line : string) (m : ModelFile) (file : FILE) :
  exists m' file' ls,
    parse_line line m file = Ok (m', file')
    /\ reads file ls file'
    /\ rest_of file file'.
Proof.
  destruct (parse_line_ok line m file) as (m' & file' & E & R).
  destruct (parse_line_reads _ _ _ _ _ E) as [ls Rd].
  now exists m', file', ls.
Qed.

Section FirstCharacter.

Lemma prefix_first (kw line : string) (k c : ascii) :
  k <> c -> prefix (String k kw) (String c line) = false.
Proof. intros H. simpl. now destruct (ascii_dec k c). Qed.

End FirstCharacter.

(** X3.  Matching is on the exact keyword at the start of the line: a
    line whose first character is none of F, P, T, S, A, L, M (a line
    that starts with a space or a tab, a keyword in lower case) changes
    nothing and reads nothing. *)
Theorem parse_line_other_first_character
  (c : ascii) (l : string) (m : ModelFile) (file : FILE)
  (HF : c <> "F"%char) (HP : c <> "P"%char) (HT : c <> "T"%char)
  (HS : c <> "S"%char) (HA : c <> "A"%char) (HL : c <> "L"%char)
  (HM : c <> "M"%char) :
  parse_line (String c l) m file = Ok (m, file).
Proof.
  apply parse_line_other; apply prefix_first; congruence.
Qed.

Lemma parse_line_other_first_character_witness :
  parse_line "  FROM llama3" empty_model "PARAMETER a b"
  = Ok (empty_model, "PARAMETER a b")
  /\ parse_line "from llama3" empty_model "PARAMETER a b"
     = Ok (empty_model, "PARAMETER a b").
Proof.
  split.
  - apply (parse_line_other_first_character " " " FROM llama3");
      discriminate.
  - apply (parse_line_other_first_character "f" "rom llama3");
      discriminate.
Defined.

(** X4.  A MESSAGE line is split at the first space after the keyword
    and its space: the model that comes back has, as the new last
    element of [messages], the pair of the text before that space (the
    role) and all the text after it (the content, further spaces
    included), and every other field as before; without such a space the
    model comes back as it was. *)
Theorem message_line
  (role content rest : string) (m : ModelFile) (file : FILE)
  (Hrole : lacks " " role) (Hrest : lacks " " rest) :
  parse_line ("MESSAGE " ++ role ++ String " " content) m file
  = Ok (mkModelFile (from m) (parameters m) (template_str m) (system m)
          (adapter m) (license m) (messages m ++ [(role, content)]), file)
  /\ parse_line ("MESSAGE " ++ rest) m file = Ok (m, file).
Proof.
  split; [exact (parse_line_message_pair m file role content Hrole) |].
  rewrite parse_line_message. unfold lacks in Hrest. now rewrite Hrest.
Qed.

Lemma message_line_witness :
  parse_line "MESSAGE user Hello there"
    (mkModelFile "f" [("k", "v")] "t" "s" "a" "l" [("system", "Be brief.")])
    EmptyString
  = Ok (mkModelFile "f" [("k", "v")] "t" "s" "a" "l"
          [("system", "Be brief."); ("user", "Hello there")], EmptyString)
  /\ parse_line "MESSAGE user" empty_model EmptyString
     = Ok (empty_model, EmptyString).
Proof.
  split.
  - exact (proj1 (message_line "user" "Hello there" "user"
                    (mkModelFile "f" [("k", "v")] "t" "s" "a" "l"
                       [("system", "Be brief.")])
                    EmptyString eq_refl eq_refl)).
  - exact (proj2 (message_line "user" "Hello there" "user" empty_model
                    EmptyString eq_refl eq_refl)).
Defined.

(** X5.  LICENSE reads a continuation as SYSTEM does.  When the value
    holds the marker and the stream yields lines without the marker and
    then one with it, [license] becomes the value, a newline and these
    lines up to and including that one, less one trailing newline, and
    the stream is left after them.  When the value does not hold the
    marker, [license] becomes the value and the stream is left alone,
    whatever it holds.  No other field changes. *)
Theorem license_continuation (v : string) (m : ModelFile) (file : FILE) :
  (has_marker v = true ->
   forall body closing file',
     reads file (body ++ [closing]) file' ->
     Forall (fun l => has_marker l = false) body ->
     has_marker closing = true ->
     parse_line ("LICENSE " ++ v) m file
     = Ok (mkModelFile (from m) (parameters m) (template_str m) (system m)
             (adapter m) (v ++ String NL (chomp (join body ++ closing)))
             (messages m), file'))
  /\ (has_marker v = false ->
      parse_line ("LICENSE " ++ v) m file
      = Ok (mkModelFile (from m) (parameters m) (template_str m) (system m)
              (adapter m) v (messages m), file)).
Proof.
  rewrite parse_line_license. split.
  - intros H body closing file' Hreads Hbody Hclosing.
    destruct (has_marker_find _ H) as [p ->].
    now rewrite (read_multiline_closed body closing file file').
  - intros H. unfold has_marker in H.
    destruct (find v marker); [discriminate | reflexivity].
Qed.

Lemma license_continuation_witness :
  let l1 := "Permission is granted" ++ String NL EmptyString in
  let l2 := marker ++ String NL EmptyString in
  parse_line ("LICENSE " ++ marker ++ "MIT") empty_model (l1 ++ l2 ++ "FROM x")
  = Ok (mkModelFile EmptyString [] EmptyString EmptyString EmptyString
          (marker ++ "MIT" ++ String NL ("Permission is granted"
             ++ String NL marker)) [], "FROM x")
  /\ parse_line "LICENSE MIT" empty_model "FROM x"
     = Ok (mkModelFile EmptyString [] EmptyString EmptyString EmptyString
             "MIT" [], "FROM x").
Proof.
  intros l1 l2.
  assert (R : reads (l1 ++ l2 ++ "FROM x") ([l1] ++ [l2]) "FROM x").
  { exact (reads_cons (l1 ++ l2 ++ "FROM x") l1 (l2 ++ "FROM x") [l2] "FROM x"
             eq_refl
             (reads_cons (l2 ++ "FROM x") l2 "FROM x" [] "FROM x" eq_refl
                (reads_nil "FROM x"))). }
  assert (B : Forall (fun l => has_marker l = false) [l1])
    by (repeat constructor).
  split.
  - exact (proj1 (license_continuation (marker ++ "MIT") empty_model
                    (l1 ++ l2 ++ "FROM x")) eq_refl [l1] l2 "FROM x" R B eq_refl).
  - exact (proj2 (license_continuation "MIT" empty_model "FROM x") eq_refl).
Defined.

(** ** The right trim of the main loop *)

Section TrimMore.



Lemma rtrim_removes_blank_suffix (s : string) :
  exists w, s = rtrim s ++ w.
Proof.
  exists (drop (succ_size_t (find_last_not_of s trim_chars)) s).
  unfold rtrim. now rewrite take_drop.
Qed.

End TrimMore.

(** X6.  The trim of the main loop never throws and removes exactly the
    longest run of spaces, newlines, carriage returns and tabs at the
    end of the line: what it removes is made of these characters, what
    it keeps is empty or ends in another character, and trimming again
    changes nothing.  Nothing is removed at the front. *)
Theorem rtrim_removes_trailing_blanks (s : string) :
  erase s (succ_size_t (find_last_not_of s trim_chars)) = Ok (rtrim s)
  /\ (exists w, s = rtrim s ++ w /\ all_in trim_chars w = true)
  /\ (rtrim s = EmptyString \/ ends_clean (rtrim s) = true)
  /\ rtrim (rtrim s) = rtrim s.
Proof.
  split; [apply erase_rtrim |].
  split; [| split; [apply rtrim_ends_clean |]].
  - destruct (split_at_last_kept trim_chars s) as [H | (a & c & w & -> & Hc & Hw)].
    + exists s. now rewrite (rtrim_blank s H).
    + exists w. rewrite (rtrim_kept a w c Hc Hw), app_assoc_s. now split.
  - destruct (split_at_last_kept trim_chars s) as [H | (a & c & w & -> & Hc & Hw)].
    + now rewrite (rtrim_blank s H).
    + rewrite (rtrim_kept a w c Hc Hw).
      exact (rtrim_kept a EmptyString c Hc eq_refl).
Qed.





(** ** The scalar fields *)

Section LastWrite.

Lemma parse_line_single (line : string) (m m' : ModelFile) (file file' : FILE) :
  parse_line line m file = Ok (m', file') ->
  from m' = (if prefix "FROM " line then drop 5 line else from m)
  /\ template_str m'
     = (if prefix "TEMPLATE " line then drop 9 line else template_str m)
  /\ adapter m' = (if prefix "ADAPTER " line then drop 8 line else adapter m).
Proof.
  intros H.
  destruct (line_shape_cases line) as [v ->|rest ->|v ->|v ->|v ->|v ->|rest ->|].
  - rewrite parse_line_from in H. injection H as <- <-.
    rewrite prefix_app. now repeat split.
  - rewrite parse_line_parameter in H.
    destruct (find_char rest " " 0); injection H as <- <-; now repeat split.
  - rewrite parse_line_template in H. injection H as <- <-.
    rewrite prefix_app. now repeat split.
  - rewrite parse_line_system in H. destruct (find v marker).
    + destruct (read_multiline file) as [[r f]| |]; try discriminate.
      injection H as <- <-. now repeat split.
    + injection H as <- <-. now repeat split.
  - rewrite parse_line_adapter in H. injection H as <- <-.
    rewrite prefix_app. now repeat split.
  - rewrite parse_line_license in H. destruct (find v marker).
    + destruct (read_multiline file) as [[r f]| |]; try discriminate.
      injection H as <- <-. now repeat split.
    + injection H as <- <-. now repeat split.
  - rewrite parse_line_message in H.
    destruct (find_char rest " " 0); injection H as <- <-; now repeat split.
  - rewrite parse_line_other in H by assumption. injection H as <- <-.
    rewrite Hfrom, Htemplate, Hadapter. now repeat split.
Qed.

Lemma last_value_cons (kw l : string) (hs : list string) (init : string) :
  last_value kw (l :: hs) init
  = last_value kw hs (if prefix kw l then drop (String.length kw) l else init).
Proof. reflexivity. Qed.

Lemma parse_stream_last_value (file : FILE) (hs : list string) :
  handled file hs ->
  forall m, exists doc,
    parse_stream file m = Ok doc
    /\ from doc = last_value "FROM " hs (from m)
    /\ template_str doc = last_value "TEMPLATE " hs (template_str m)
    /\ adapter doc = last_value "ADAPTER " hs (adapter m).
Proof.
  induction 1 as [|file raw file1 hs R Sk _ IH|file raw file1 hs R Sk _ IH];
    intros m.
  - now exists m.
  - rewrite (parse_stream_step _ _ _ m R), Sk. apply IH.
  - rewrite (parse_stream_step _ _ _ m R), Sk.
    destruct (parse_line_ok (rtrim raw) m file1) as (m' & f & PL & _).
    rewrite PL. cbn [bind].
    rewrite (parse_line_stream_after _ _ _ _ _ PL).
    destruct (parse_line_single _ _ _ _ _ PL) as (E1 & E2 & E3).
    destruct (IH m') as (doc & Rn & H1 & H2 & H3).
    exists doc. split; [exact Rn |].
    rewrite !last_value_cons.
    change (String.length "FROM ") with 5.
    change (String.length "TEMPLATE ") with 9.
    change (String.length "ADAPTER ") with 8.
    now rewrite <- E1, <- E2, <- E3.
Qed.

Lemma last_value_last (kw v init : string) (pre : list string) :
  last_value kw (pre ++ [kw ++ v]) init = v.
Proof.
  unfold last_value. rewrite fold_left_app. cbn [fold_left].
  now rewrite prefix_app, drop_app.
Qed.

End LastWrite.

(** X9.  FROM, TEMPLATE and ADAPTER are written over, never appended
    to or refused: on every file each of these fields ends as the text
    after the keyword on the last line with that keyword that the main
    loop hands over, and as the empty string when there is none; of two
    FROM lines the later one decides. *)
Theorem last_directive_wins
  (file : FILE) (hs : list string) (Hhandled : handled file hs) :
  (exists doc,
      parse_stream file empty_model = Ok doc
      /\ from doc = last_value "FROM " hs EmptyString
      /\ template_str doc = last_value "TEMPLATE " hs EmptyString
      /\ adapter doc = last_value "ADAPTER " hs EmptyString)
  /\ (forall pre v init, last_value "FROM " (pre ++ ["FROM " ++ v]) init = v)
  /\ (forall pre v init,
         last_value "TEMPLATE " (pre ++ ["TEMPLATE " ++ v]) init = v)
  /\ (forall pre v init,
         last_value "ADAPTER " (pre ++ ["ADAPTER " ++ v]) init = v).
Proof.
  split; [exact (parse_stream_last_value file hs Hhandled empty_model) |].
  repeat split; intros pre v init; apply last_value_last.
Qed.

Lemma last_directive_wins_witness :
  let l1 := "FROM first" ++ String NL EmptyString in
  let l2 := "FROM second" in
  exists doc,
    parse_stream (l1 ++ l2) empty_model = Ok doc /\ from doc = "second".
Proof.
  intros l1 l2.
  assert (H : handled (l1 ++ l2) ["FROM first"; "FROM second"]).
  { apply (handled_line (l1 ++ l2) l1 l2);
      [exact (reads_one (l1 ++ l2) l1 l2 eq_refl) | reflexivity |].
    apply (handled_line l2 l2 EmptyString);
      [exact (reads_one l2 l2 EmptyString eq_refl) | reflexivity |].
    exact handled_eof. }
  destruct (last_directive_wins _ _ H) as ((doc & E & F & _) & _).
  exists doc. split; [exact E | exact F].
Defined.

(** X10.  On every stream [read_multiline] returns: it reads lines up to
    and including the first one that holds the marker, or to the end of
    the stream when there is none, and gives back these lines joined,
    less one trailing newline, together with the stream after them.  On
    a stream at its end it gives back the empty string. *)
Theorem read_multiline_reads_to_marker_or_end (file : FILE) :
  (exists ls file',
      read_multiline file = Ok (chomp (join ls), file')
      /\ reads file ls file'
      /\ ((file' = EmptyString /\ Forall (fun l => has_marker l = false) ls)
          \/ exists body closing,
               ls = (body ++ [closing])%list
               /\ Forall (fun l => has_marker l = false) body
               /\ has_marker closing = true))
  /\ read_multiline EmptyString = Ok (EmptyString, EmptyString).
Proof.
  split; [| reflexivity].
  destruct (read_multiline_loop_spec (S (String.length file)) file EmptyString)
    as (ls & f' & R & Rd & C); [lia |].
  exists ls, f'. rewrite read_multiline_chomp, R. now repeat split.
Qed.



(** ** What the buffer does to a line *)

Section Buffer.

Lemma fgets_scan_full (l rest : string) :
  lacks NL l -> fgets_scan (String.length l) (l ++ rest) = (l, rest).
Proof.
  induction l as [|c l IH]; intros H; simpl; [reflexivity |].
  apply lacks_cons in H as [Hc Hl].
  destruct (Ascii.eqb_spec c NL); [congruence |]. now rewrite IH.
Qed.

Lemma fgets_full (l rest : string) :
  lacks NL l -> String.length l = buffer_size - 1 ->
  fgets buffer_size (l ++ rest) = Some (l, rest).
Proof.
  intros Hl Hn. unfold fgets.
  destruct (l ++ rest) eqn:E.
  - destruct l; [discriminate Hn | discriminate E].
  - rewrite <- E, <- Hn. now rewrite fgets_scan_full.
Qed.


Lemma front_comment (l : string) :
  front l = Some "#"%char -> blank_or_comment l = true.
Proof.
  unfold blank_or_comment. intros ->. simpl. apply orb_true_r.
Qed.

End Buffer.

(** X12.  A line of 1023 characters or more is read in pieces: the
    first 1023 characters are handled as a line of their own and what
    follows them, still on the same line of the file, is read as the
    next line.  So the tail of a comment that long is parsed as if it
    stood on a line of its own. *)
Theorem overlong_line_split
  (l : string) (rest : FILE) (m : ModelFile)
  (Hnl : lacks NL l) (Hnul : lacks NUL l)
  (Hlen : String.length l = buffer_size - 1) :
  reads (l ++ rest) [l] rest
  /\ parse_stream (l ++ rest) m
     = (if skipped (rtrim l) then parse_stream rest m
        else '(m', file') <- parse_line (rtrim l) m rest ;;
             parse_stream file' m')
  /\ (front l = Some "#"%char ->
      parse_stream (l ++ rest) m = parse_stream rest m).
Proof.
  assert (R : reads (l ++ rest) [l] rest).
  { rewrite <- (string_of_buffer_id l Hnul) at 2.
    apply reads_one. now apply fgets_full. }
  split; [exact R |]. split.
  - exact (parse_stream_step l (l ++ rest) rest m R).
  - intros Hc. apply (parse_stream_skip l _ _ m R). now apply front_comment.
Qed.



(** ** Invariants of the document *)

Section DocumentInvariants.

Lemma lacks_take (c : ascii) (n : nat) (s : string) :
  lacks c s -> lacks c (take n s).
Proof.
  intros H. rewrite <- (take_drop n s) in H. now apply lacks_app in H as [H _].
Qed.

Lemma lacks_drop (c : ascii) (n : nat) (s : string) :
  lacks c s -> lacks c (drop n s).
Proof.
  intros H. rewrite <- (take_drop n s) in H. now apply lacks_app in H as [_ H].
Qed.

Lemma lacks_rtrim (c : ascii) (s : string) : lacks c s -> lacks c (rtrim s).
Proof. apply lacks_take. Qed.

Lemma pair_after_lacks (c : ascii) (kw line : string) :
  lacks c line ->
  Forall (fun kv => lacks c (fst kv) /\ lacks c (snd kv)) (pair_after kw line).
Proof.
  intros H. unfold pair_after. destruct (prefix kw line); [| constructor].
  destruct (find_char _ " " 0); constructor; [| constructor].
  cbn [fst snd]. split.
  - apply lacks_take, lacks_drop, H.
  - apply lacks_drop, lacks_drop, H.
Qed.

Lemma string_of_buffer_prefix (b : string) :
  exists t, b = string_of_buffer b ++ t.
Proof.
  induction b as [|c b [t IH]]; simpl.
  - now exists EmptyString.
  - destruct (Ascii.eqb c NUL).
    + now exists (String c b).
    + exists t. simpl. now rewrite <- IH.
Qed.

Lemma string_of_buffer_lacks_NUL (b : string) : lacks NUL (string_of_buffer b).
Proof.
  induction b as [|c b IH]; simpl; [reflexivity |].
  destruct (Ascii.eqb_spec c NUL); [reflexivity |].
  apply lacks_cons. now split.
Qed.

(** What [fgets] stores has a newline at its end or nowhere. *)
Lemma fgets_scan_newline (n : nat) (s b r : string) :
  fgets_scan n s = (b, r) ->
  exists l, lacks NL l /\ (b = l \/ b = l ++ String NL EmptyString).
Proof.
  revert s b r; induction n as [|n IH]; intros s b r H.
  - simpl in H. injection H as <- <-. exists EmptyString. now split; [| left].
  - destruct s as [|c s]; simpl in H.
    + injection H as <- <-. exists EmptyString. now split; [| left].
    + destruct (Ascii.eqb_spec c NL) as [->|ne].
      * injection H as <- <-. exists EmptyString. now split; [| right].
      * destruct (fgets_scan n s) as [l' r'] eqn:E. injection H as <- <-.
        destruct (IH _ _ _ E) as (l & Hl & [-> | ->]);
          exists (String c l); (split; [now apply lacks_cons |]); auto.
Qed.

Lemma prefix_of_line (p t l : string) :
  p ++ t = l ++ String NL EmptyString -> lacks NL l ->
  lacks NL p \/ p = l ++ String NL EmptyString.
Proof.
  revert l; induction p as [|c p IH]; intros l E Hl; [now left |].
  destruct l as [|d l]; simpl in E.
  - injection E as -> E. destruct p; [now right | discriminate].
  - injection E as -> E. apply lacks_cons in Hl as [Hd Hl].
    destruct (IH _ E Hl) as [H | ->].
    + left. now apply lacks_cons.
    + now right.
Qed.

(** A line that the main loop hands over holds no newline and no NUL. *)
Lemma handled_line_lacks (file : FILE) (b : string) (file1 : FILE) :
  fgets buffer_size file = Some (b, file1) ->
  lacks NL (rtrim (string_of_buffer b))
  /\ lacks NUL (rtrim (string_of_buffer b)).
Proof.
  intros E. split; [| apply lacks_rtrim, string_of_buffer_lacks_NUL].
  assert (S : exists l, lacks NL l /\ (b = l \/ b = l ++ String NL EmptyString)).
  { unfold fgets in E. destruct file as [|x file]; [discriminate |].
    assert (E' : fgets_scan (buffer_size - 1) (String x file) = (b, file1))
      by congruence.
    exact (fgets_scan_newline _ _ _ _ E'). }
  destruct S as (l & Hl & Hb).
  destruct (string_of_buffer_prefix b) as [t1 E1].
  destruct (rtrim_removes_blank_suffix (string_of_buffer b)) as [t2 E2].
  assert (P : b = rtrim (string_of_buffer b) ++ (t2 ++ t1)).
  { rewrite <- app_assoc_s, <- E2. exact E1. }
  pose proof (rtrim_ends_clean (string_of_buffer b)) as C.
  remember (rtrim (string_of_buffer b)) as line eqn:Eline. clear Eline E1 E2.
  destruct Hb as [Hb | Hb]; rewrite Hb in P.
  - rewrite P in Hl. now apply lacks_app in Hl as [Hl _].
  - symmetry in P. destruct (prefix_of_line _ _ _ P Hl) as [H | H]; [exact H |].
    destruct C as [-> | C]; [reflexivity |].
    rewrite H in C. unfold ends_clean in C. rewrite back_app_char in C.
    discriminate.
Qed.

Lemma parse_line_single_lacks (c : ascii) (line : string) (m m' : ModelFile)
      (file file' : FILE) :
  lacks c line ->
  parse_line line m file = Ok (m', file') ->
  single_line_fields_lack c m -> single_line_fields_lack c m'.
Proof.
  intros Hl PL (H1 & H2 & H3 & H4 & H5).
  destruct (parse_line_single _ _ _ _ _ PL) as (E1 & E2 & E3).
  destruct (parse_line_sequences _ _ _ _ _ PL) as (E4 & E5).
  unfold single_line_fields_lack. rewrite E1, E2, E3, E4, E5.
  repeat split.
  - destruct (prefix "FROM " line); [now apply lacks_drop | exact H1].
  - destruct (prefix "TEMPLATE " line); [now apply lacks_drop | exact H2].
  - destruct (prefix "ADAPTER " line); [now apply lacks_drop | exact H3].
  - apply Forall_app. split; [exact H4 | now apply pair_after_lacks].
  - apply Forall_app. split; [exact H5 | now apply pair_after_lacks].
Qed.

Lemma lacks_join (c : ascii) (ls : list string) :
  Forall (lacks c) ls -> lacks c (join ls).
Proof.
  induction 1 as [|l ls Hl _ IH]; simpl; [reflexivity |].
  apply lacks_app. now split.
Qed.

Lemma lacks_pop_back (c : ascii) (s : string) :
  lacks c s -> lacks c (pop_back s).
Proof.
  induction s as [|x s IH]; intros H; [reflexivity |].
  apply lacks_cons in H as [Hx Hs]. simpl.
  destruct s as [|y s]; [reflexivity |].
  apply lacks_cons. split; [exact Hx | now apply IH].
Qed.

Lemma lacks_chomp (c : ascii) (s : string) : lacks c s -> lacks c (chomp s).
Proof.
  intros H. unfold chomp. destruct (negb (empty s) && _); [| exact H].
  now apply lacks_pop_back.
Qed.

Lemma reads_lack_NUL (file : FILE) (ls : list string) (file' : FILE) :
  reads file ls file' -> Forall (lacks NUL) ls.
Proof.
  induction 1; constructor; [apply string_of_buffer_lacks_NUL | assumption].
Qed.

Lemma read_multiline_lacks_NUL (file : FILE) (res : string) (file' : FILE) :
  read_multiline file = Ok (res, file') -> lacks NUL res.
Proof.
  intros H.
  destruct (read_multiline_loop_spec (S (String.length file)) file EmptyString)
    as (ls & f' & R & Rd & _); [lia |].
  rewrite read_multiline_chomp, R in H. injection H as <- <-.
  apply lacks_chomp, lacks_join. eapply reads_lack_NUL. exact Rd.
Qed.

Lemma parse_line_multi_lacks_NUL (line : string) (m m' : ModelFile)
      (file file' : FILE) :
  lacks NUL line ->
  parse_line line m file = Ok (m', file') ->
  lacks NUL (system m) /\ lacks NUL (license m) ->
  lacks NUL (system m') /\ lacks NUL (license m').
Proof.
  intros Hl H [Hs Hc].
  destruct (line_shape_cases line) as [v ->|rest ->|v ->|v ->|v ->|v ->|rest ->|].
  - rewrite parse_line_from in H. now injection H as <- <-.
  - rewrite parse_line_parameter in H.
    destruct (find_char rest " " 0); now injection H as <- <-.
  - rewrite parse_line_template in H. now injection H as <- <-.
  - rewrite parse_line_system in H.
    assert (Hv : lacks NUL v) by exact (lacks_drop NUL 7 _ Hl).
    destruct (find v marker).
    + destruct (read_multiline file) as [[r f]| |] eqn:E; try discriminate.
      injection H as <- <-. simpl. split; [| exact Hc].
      apply lacks_app. split; [exact Hv |].
      apply lacks_cons. split; [discriminate |].
      eapply read_multiline_lacks_NUL. exact E.
    + injection H as <- <-. now split.
  - rewrite parse_line_adapter in H. now injection H as <- <-.
  - rewrite parse_line_license in H.
    assert (Hv : lacks NUL v) by exact (lacks_drop NUL 8 _ Hl).
    destruct (find v marker).
    + destruct (read_multiline file) as [[r f]| |] eqn:E; try discriminate.
      injection H as <- <-. simpl. split; [exact Hs |].
      apply lacks_app. split; [exact Hv |].
      apply lacks_cons. split; [discriminate |].
      eapply read_multiline_lacks_NUL. exact E.
    + injection H as <- <-. now split.
  - rewrite parse_line_message in H.
    destruct (find_char rest " " 0); now injection H as <- <-.
  - rewrite parse_line_other in H by assumption. now injection H as <- <-.
Qed.

End DocumentInvariants.

Section DocumentInvariants2.

(** A property of the model that every handled line keeps holds of the
    document of every file. *)
Lemma document_invariant (Inv : ModelFile -> Prop) :
  Inv empty_model ->
  (forall file b file1 m m' file2,
      fgets buffer_size file = Some (b, file1) ->
      skipped (rtrim (string_of_buffer b)) = false ->
      parse_line (rtrim (string_of_buffer b)) m file1 = Ok (m', file2) ->
      Inv m -> Inv m') ->
  forall fs filename,
    exists doc, parse_modelfile fs filename = Ok doc /\ Inv doc.
Proof.
  intros H0 Hstep fs filename. unfold parse_modelfile.
  destruct (fopen fs filename) as [file|]; [| now exists empty_model].
  destruct (parse_stream_invariant (fun _ m => Inv m))
    with (file := file) (m := empty_model) as (doc & R & H); auto.
  - intros f m b f1 m' f2 Hm E Sk PL. eapply Hstep; eassumption.
  - now exists doc.
Qed.

Lemma ends_clean_drop_keyword (kw v : string) :
  ends_clean ((kw ++ String " " EmptyString) ++ v) = true ->
  ends_clean v = true.
Proof.
  rewrite app_assoc_s. simpl. apply ends_clean_after_space.
Qed.

Lemma clean_after_keyword (kw line old : string) :
  ends_clean line = true ->
  old = EmptyString \/ value_ok old ->
  let new := if prefix (kw ++ String " " EmptyString) line
             then drop (String.length (kw ++ String " " EmptyString)) line
             else old in
  new = EmptyString \/ value_ok new.
Proof.
  intros Hc Ho. simpl.
  destruct (prefix (kw ++ String " " EmptyString) line) eqn:P; [| exact Ho].
  apply prefix_inv in P as [v ->]. rewrite drop_app. right.
  apply ends_clean_value_ok. eapply ends_clean_drop_keyword. exact Hc.
Qed.

Lemma fold_print_pair (label : string) (ps : list (string * string))
      (out : string) :
  Forall (fun kv => lacks NUL (fst kv) /\ lacks NUL (snd kv)) ps ->
  fold_left (print_pair label) ps out = out ++ report_pairs label ps.
Proof.
  intros H. revert out. induction H as [|[k v] ps [Hk Hv] _ IH]; intros out.
  - simpl. now rewrite app_empty_r.
  - simpl. rewrite IH. unfold print_pair. simpl fst. simpl snd.
    rewrite !string_of_buffer_id by assumption.
    now rewrite !app_assoc_s.
Qed.

Lemma parse_stream_blank (ls : list string) (m : ModelFile) :
  Forall short_line ls ->
  Forall (fun l => blank_or_comment l = true) ls ->
  parse_stream (unlines ls) m = Ok m.
Proof.
  induction 1 as [|l ls Hl _ IH]; intros Hb; [reflexivity |].
  inversion Hb as [|l' ls' B Bs]; subst. simpl.
  rewrite (parse_stream_skip _ _ _ m (reads_line l (unlines ls) Hl)).
  - now apply IH.
  - now rewrite blank_or_comment_newline.
Qed.

End DocumentInvariants2.

(** X14.  On every file, [from], [templateText] and [adapter] of the
    document are each empty or a text that is not empty and does not
    end in a space, a tab, a carriage return or a newline.  A line that
    holds only the keyword FROM, TEMPLATE or ADAPTER and blanks after it
    (the line within the buffer) is passed by the main loop with the
    model as it was: it neither sets the field nor clears it. *)
Theorem scalar_values_clean (fs : filesystem) (filename : string) :
  (exists doc,
      parse_modelfile fs filename = Ok doc
      /\ (from doc = EmptyString \/ value_ok (from doc))
      /\ (template_str doc = EmptyString \/ value_ok (template_str doc))
      /\ (adapter doc = EmptyString \/ value_ok (adapter doc)))
  /\ (forall w rest m,
         all_in trim_chars w = true -> lacks NL w -> lacks NUL w ->
         String.length w + 10 < buffer_size ->
         parse_stream (("FROM" ++ w) ++ String NL rest) m = parse_stream rest m
         /\ parse_stream (("TEMPLATE" ++ w) ++ String NL rest) m
            = parse_stream rest m
         /\ parse_stream (("ADAPTER" ++ w) ++ String NL rest) m
            = parse_stream rest m).
Proof.
  split.
  - apply (document_invariant
             (fun m => (from m = EmptyString \/ value_ok (from m))
                       /\ (template_str m = EmptyString
                           \/ value_ok (template_str m))
                       /\ (adapter m = EmptyString \/ value_ok (adapter m)))).
    + repeat split; now left.
    + intros file b file1 m m' file2 _ Sk PL (H1 & H2 & H3).
      apply skipped_false_clean in Sk.
      destruct (parse_line_single _ _ _ _ _ PL) as (-> & -> & ->).
      repeat split.
      * exact (clean_after_keyword "FROM" _ _ Sk H1).
      * exact (clean_after_keyword "TEMPLATE" _ _ Sk H2).
      * exact (clean_after_keyword "ADAPTER" _ _ Sk H3).
  - intros w rest m Hw Hnl Hnul Hlen.
    assert (K : forall kw,
               short_line kw -> String.length kw < 10 ->
               ends_clean kw = true -> skipped kw = false ->
               (forall f, parse_line kw m f = Ok (m, f)) ->
               parse_stream ((kw ++ w) ++ String NL rest) m
               = parse_stream rest m).
    { intros kw Hk Hl Hc Hs Hp.
      assert (S : short_line (kw ++ w))
        by (apply short_line_app; try assumption; unfold buffer_size in *; lia).
      rewrite (parse_stream_step _ _ _ m (reads_line (kw ++ w) rest S)).
      rewrite rtrim_newline, (rtrim_clean kw w Hc Hw), Hs, Hp. reflexivity. }
    repeat split; apply K; try reflexivity;
      repeat split; try reflexivity; unfold buffer_size; simpl; lia.
Qed.

Lemma scalar_values_clean_witness :
  parse_stream (unlines ["FROM a"; "FROM   "; "FROM"]) empty_model
  = parse_stream (unlines ["FROM a"; "FROM"]) empty_model
  /\ parse_stream (unlines ["FROM"]) (mkModelFile "a" [] "t" "s" "b" "l" [])
     = Ok (mkModelFile "a" [] "t" "s" "b" "l" []).
Proof.
  destruct (scalar_values_clean (fun _ => None) "Modelfile") as [_ H].
  split.
  - change (parse_stream (unlines ["FROM a"; "FROM   "; "FROM"]) empty_model)
      with (parse_stream (("FROM" ++ "   ") ++ String NL (unlines ["FROM"]))
              (mkModelFile "a" [] EmptyString EmptyString EmptyString
                 EmptyString [])).
    exact (proj1 (H "   " (unlines ["FROM"])
                    (mkModelFile "a" [] EmptyString EmptyString EmptyString
                       EmptyString [])
                    eq_refl eq_refl eq_refl
                    ltac:(unfold buffer_size; simpl; lia))).
  - exact (proj1 (H EmptyString EmptyString
                    (mkModelFile "a" [] "t" "s" "b" "l" [])
                    eq_refl eq_refl eq_refl
                    ltac:(unfold buffer_size; simpl; lia))).
Defined.

(** X15.  On every file, the fields that one line fills hold no
    newline: [from], [templateText], [adapter] and both parts of every
    pair of [parameters] and [messages].  Only [system] and [license]
    can span lines. *)
Theorem single_line_fields_have_no_newline
  (fs : filesystem) (filename : string) :
  exists doc,
    parse_modelfile fs filename = Ok doc
    /\ single_line_fields_lack NL doc.
Proof.
  apply (document_invariant (single_line_fields_lack NL)).
  - repeat split; constructor.
  - intros file b file1 m m' file2 E _ PL H.
    destruct (handled_line_lacks _ _ _ E) as [Hnl _].
    exact (parse_line_single_lacks NL _ _ _ _ _ Hnl PL H).
Qed.

(** X16.  [main] never fails: on every filesystem it returns 0, and what
    it prints is the report of the document of [Modelfile] with every
    field in full, because no field holds a NUL at which [printf] would
    stop. *)
Theorem main_prints_whole_document (fs : filesystem) :
  exists doc,
    parse_modelfile fs "Modelfile" = Ok doc
    /\ main fs = Ok (report doc, 0).
Proof.
  destruct (document_invariant
              (fun m => single_line_fields_lack NUL m
                        /\ lacks NUL (system m) /\ lacks NUL (license m)))
    with (fs := fs) (filename := "Modelfile")
    as (doc & E & (H1 & H2 & H3 & H4 & H5) & H6 & H7).
  - repeat split; constructor.
  - intros file b file1 m m' file2 Eb _ PL [H HM].
    destruct (handled_line_lacks _ _ _ Eb) as [_ Hnul].
    split.
    + exact (parse_line_single_lacks NUL _ _ _ _ _ Hnul PL H).
    + exact (parse_line_multi_lacks_NUL _ _ _ _ _ Hnul PL HM).
  - exists doc. split; [exact E |].
    unfold main. rewrite E. cbn [bind]. unfold report.
    rewrite !fold_print_pair by assumption.
    rewrite !string_of_buffer_id by assumption.
    now rewrite !app_assoc_s.
Qed.

(** X17.  When [Modelfile] cannot be opened, and when it holds nothing
    but blank lines and comments, each within the buffer (at most 1022
    characters, no NUL), [main] prints the five headings with nothing
    after them and returns 0: the two cases cannot be told apart from
    the output. *)
Theorem main_empty_report
  (fs : filesystem)
  (Hempty : fopen fs "Modelfile" = None
            \/ exists ls,
                 fopen fs "Modelfile" = Some (unlines ls)
                 /\ Forall short_line ls
                 /\ Forall (fun l => blank_or_comment l = true) ls) :
  main fs = Ok (report empty_model, 0)
  /\ report empty_model
     = "FROM: " ++ String NL ("TEMPLATE: " ++ String NL ("SYSTEM: "
         ++ String NL ("ADAPTER: " ++ String NL ("LICENSE: "
         ++ String NL EmptyString)))).
Proof.
  split; [| reflexivity].
  assert (E : parse_modelfile fs "Modelfile" = Ok empty_model).
  { unfold parse_modelfile. destruct Hempty as [-> | (ls & -> & Hs & Hb)];
      [reflexivity |].
    exact (parse_stream_blank ls empty_model Hs Hb). }
  unfold main. now rewrite E.
Qed.

Lemma main_empty_report_witness :
  main (fun _ => None) = Ok (report empty_model, 0)
  /\ main (single_file "Modelfile" (unlines ["# a comment"; EmptyString]))
     = Ok (report empty_model, 0).
Proof.
  split.
  - exact (proj1 (main_empty_report (fun _ => None) (or_introl eq_refl))).
  - refine (proj1 (main_empty_report
                     (single_file "Modelfile"
                        (unlines ["# a comment"; EmptyString]))
                     (or_intror (ex_intro _ ["# a comment"; EmptyString]
                                   (conj eq_refl (conj _ _)))))).
    + repeat constructor; unfold buffer_size; simpl; lia.
    + repeat constructor.
Defined.

Lemma overlong_line_split_witness :
  let l := String "#"%char (replicate 1022 "x"%char) in
  parse_stream (l ++ "FROM leaked") empty_model
  = parse_stream "FROM leaked" empty_model.
Proof.
  intros l.
  exact (proj2 (proj2 (overlong_line_split l "FROM leaked" empty_model
                         eq_refl eq_refl eq_refl)) eq_refl).
Defined.

Section Keys.

Lemma find_char_take (s : string) (c : ascii) (p : nat) :
  find_char s c 0 = Some p -> lacks c (take p s).
Proof.
  revert p; induction s as [|x s IH]; simpl; intros p H; [discriminate |].
  destruct (Ascii.eqb_spec x c) as [->|ne].
  - injection H as <-. reflexivity.
  - destruct (find_char s c 0) as [q|]; [| discriminate].
    injection H as <-. simpl. apply lacks_cons. split; [exact ne | now apply IH].
Qed.

Lemma pair_after_key (kw line : string) :
  Forall (fun kv => lacks " " (fst kv)) (pair_after kw line).
Proof.
  unfold pair_after. destruct (prefix kw line); [| constructor].
  destruct (find_char _ " " 0) eqn:F; constructor; [| constructor].
  exact (find_char_take _ _ _ F).
Qed.

End Keys.

(** X18.  On every file, no key of [parameters] and no role of
    [messages] holds a space: the pair is cut at the first space, so
    further spaces go to the value. *)
Theorem keys_have_no_space (fs : filesystem) (filename : string) :
  exists doc,
    parse_modelfile fs filename = Ok doc
    /\ Forall (fun kv => lacks " " (fst kv)) (parameters doc)
    /\ Forall (fun kv => lacks " " (fst kv)) (messages doc).
Proof.
  apply (document_invariant
           (fun m => Forall (fun kv => lacks " " (fst kv)) (parameters m)
                     /\ Forall (fun kv => lacks " " (fst kv)) (messages m))).
  - split; constructor.
  - intros file b file1 m m' file2 _ _ PL [H1 H2].
    destruct (parse_line_sequences _ _ _ _ _ PL) as [-> ->].
    split; apply Forall_app; split; try assumption; apply pair_after_key.
Qed.
